(** * Joke Generator API (backend/main.py): a shallow embedding

    The service keeps one process-wide dictionary [model_state] and exposes
    three handlers: [read_root], [load_model] and [generate_joke].  Tokenizer,
    model, device probe and the standard output are external; handlers are
    written in a small monad that threads [model_state], records every
    external interaction in a trace, and propagates Python exceptions
    without rolling the state back. *)

From Stdlib Require Import ZArith NArith List String Ascii Lia Floats.
From stdpp Require Import base option list gmap.

Open Scope Z_scope.

(** ** Python strings

    A Python [str] is a sequence of Unicode code points; [len], slicing,
    [replace] and [strip] all count code points. *)

Module PyStr.

Definition char : Type := N.
Definition str : Type := list N.

(** An ASCII literal of the source, as code points. *)
Definition lit (s : string) : str :=
  map N_of_ascii (list_ascii_of_string s).

Definition LF : char := 10%N.

(** [len(s)] *)
Definition len (s : str) : Z := Z.of_nat (length s).

(** Truthiness of a string: the empty string is false. *)
Definition truthy (s : str) : bool :=
  match s with
  | [] => false
  | _ :: _ => true
  end.

(** [s[:n]] for a non-negative literal bound [n]. *)
Definition slice_to (n : nat) (s : str) : str := take n s.

(** The code points [str.strip()] removes (those for which
    [str.isspace()] holds). *)
Definition isspace (c : char) : bool :=
  ((9 <=? c) && (c <=? 13) || (28 <=? c) && (c <=? 32)
   || (c =? 133) || (c =? 160) || (c =? 5760)
   || (8192 <=? c) && (c <=? 8202)
   || (c =? 8232) || (c =? 8233) || (c =? 8239) || (c =? 8287)
   || (c =? 12288))%N%bool.

Fixpoint lstrip (s : str) : str :=
  match s with
  | [] => []
  | c :: s' => if isspace c then lstrip s' else s
  end.

Definition rstrip (s : str) : str := reverse (lstrip (reverse s)).

(** [s.strip()] *)
Definition strip (s : str) : str := rstrip (lstrip s).

Fixpoint startswith (p s : str) : bool :=
  match p, s with
  | [], _ => true
  | _ :: _, [] => false
  | a :: p', b :: s' => (a =? b)%N && startswith p' s'
  end.

(** Left-to-right scan of [s.replace(old, new)] for a non-empty [old]:
    [skip] counts the code points of the current match still to be
    dropped. *)
Fixpoint replace_scan (old new : str) (skip : nat) (s : str) : str :=
  match s with
  | [] => []
  | c :: s' =>
      match skip with
      | S k => replace_scan old new k s'
      | O =>
          if startswith old s
          then new ++ replace_scan old new (length old - 1) s'
          else c :: replace_scan old new O s'
      end
  end.

(** [s.replace(old, new)]: every non-overlapping occurrence, leftmost
    first.  An empty [old] matches before every code point and at the
    end. *)
Definition replace (old new s : str) : str :=
  match old with
  | [] => new ++ flat_map (fun c => c :: new) s
  | _ :: _ => replace_scan old new O s
  end.

End PyStr.

Import PyStr.

(** ** Data model *)

(** Model configuration *)
Definition MODEL_NAME : str := lit "KingNish/Qwen2.5-0.5b-Test-ft".

(** The tokenizer object: the attributes the handlers read or write. *)
Record Tokenizer := {
  tok_checkpoint : str;
  pad_token : option str;
  eos_token : option str;
  eos_token_id : option Z
}.

(** The model object is only ever passed back to the toolkit. *)
Record Model := { model_checkpoint : str }.

(** Tokenized prompt (a batch encoding) and the device it lives on. *)
Record Inputs := { input_ids : list Z; inputs_device : str }.

(** Keyword arguments of [model.generate]. *)
Record GenerateKwargs := {
  max_new_tokens : Z;
  min_new_tokens : Z;
  kw_temperature : float;
  do_sample : bool;
  top_p : float;
  top_k : Z;
  pad_token_id : option Z;
  repetition_penalty : float
}.

(** Global model state: the dictionary literal with its three fixed keys
    ["model"], ["tokenizer"], ["model_loaded"]; no key is ever added or
    removed, [None] is [None]. *)
Record ModelState := {
  model : option Model;
  tokenizer : option Tokenizer;
  model_loaded : bool
}.

Definition model_state : ModelState :=
  {| model := None; tokenizer := None; model_loaded := false |}.

Module GenerateJokeRequest.

Record t := {
  topic : str;
  max_length : Z;
  temperature : float
}.

(** Field defaults of the request body: 0.8 is the double
    0x1.999999999999ap-1. *)
Definition default : t :=
  {| topic := []; max_length := 100;
     temperature := 0x1.999999999999ap-1%float |}.

End GenerateJokeRequest.

Module JokeResponse.

Record t := {
  joke : str;
  topic : str
}.

End JokeResponse.

(** Values of the plain dictionaries returned by [read_root] and
    [load_model]. *)
Inductive json :=
| JStr (s : str)
| JBool (b : bool).

(** ** Exceptions *)

(** An exception (a subclass of [Exception]) raised inside the toolkit or
    by the interpreter: its class name and [str(e)]. *)
Record exception := { exc_type : str; exc_str : str }.

(** [HTTPException(status_code=..., detail=...)] *)
Record HTTPException := { status_code : Z; detail : str }.

(** ** The external world *)

(** How the toolkit answers during one request.  Generation samples, so
    nothing is assumed about any answer. *)
Record Env := {
  cuda_is_available : bool;
  AutoTokenizer_from_pretrained : str -> bool -> exception + Tokenizer;
  AutoModelForCausalLM_from_pretrained :
    str -> bool -> str -> bool -> exception + Model;
  tokenizer_call : Tokenizer -> str -> str -> exception + Inputs;
  inputs_to : Inputs -> str -> exception + Inputs;
  model_generate :
    Model -> Inputs -> GenerateKwargs -> exception + list (list Z);
  tokenizer_decode : Tokenizer -> list Z -> bool -> exception + str;
  traceback_format_exc : exception -> str
}.

(** Every interaction with the outside, in program order. *)
Inductive event :=
| Print (line : str)
| CudaIsAvailable (answer : bool)
| TokenizerFromPretrained (name : str) (trust_remote_code : bool)
| ModelFromPretrained (name : str) (load_in_8bit : bool)
    (device_map : str) (low_cpu_mem_usage : bool)
| TokenizerCall (tok : Tokenizer) (text : str) (return_tensors : str)
| InputsTo (inputs : Inputs) (device : str)
| ModelGenerate (m : Model) (inputs : Inputs) (kw : GenerateKwargs)
| TokenizerDecode (tok : Tokenizer) (ids : list Z)
    (skip_special_tokens : bool).

(** ** The handler monad

    A computation reads the world, may update [model_state], emits events
    and either returns or raises.  A raise keeps the state reached so far:
    Python does not undo assignments when an exception propagates. *)

Inductive outcome (E A : Type) :=
| Returned (a : A)
| Raised (e : E).
Arguments Returned {E A} a.
Arguments Raised {E A} e.

Definition M (E A : Type) : Type :=
  Env -> ModelState -> outcome E A * ModelState * list event.

Definition ret {E A} (a : A) : M E A :=
  fun _ s => (Returned a, s, []).

Definition raise {E A} (e : E) : M E A :=
  fun _ s => (Raised e, s, []).

Definition bind {E A B} (c : M E A) (k : A -> M E B) : M E B :=
  fun env s =>
    match c env s with
    | (Returned a, s1, t1) =>
        match k a env s1 with
        | (o, s2, t2) => (o, s2, t1 ++ t2)
        end
    | (Raised e, s1, t1) => (Raised e, s1, t1)
    end.

(** [try: body except Exception as e: handler] *)
Definition try_except {E F A} (body : M E A) (handler : E -> M F A)
  : M F A :=
  fun env s =>
    match body env s with
    | (Returned a, s1, t1) => (Returned a, s1, t1)
    | (Raised e, s1, t1) =>
        match handler e env s1 with
        | (o, s2, t2) => (o, s2, t1 ++ t2)
        end
    end.

Definition ask {E} : M E Env := fun env s => (Returned env, s, []).
Definition get {E} : M E ModelState := fun _ s => (Returned s, s, []).
Definition put {E} (s : ModelState) : M E unit :=
  fun _ _ => (Returned tt, s, []).
Definition emit {E} (ev : event) : M E unit :=
  fun _ s => (Returned tt, s, [ev]).

(** A call into the toolkit: logged, then its answer returned or raised. *)
Definition extern {A} (ev : event) (answer : Env -> exception + A)
  : M exception A :=
  fun env s =>
    (match answer env with
     | inr a => Returned a
     | inl e => Raised e
     end, s, [ev]).

Declare Scope handler_scope.
Delimit Scope handler_scope with handler.
Notation "x <- c ;; k" := (bind c (fun x => k))
  (at level 100, c at next level, right associativity) : handler_scope.
Notation "c ;; k" := (bind c (fun _ => k))
  (at level 100, right associativity) : handler_scope.
Open Scope handler_scope.

Definition print {E} (line : str) : M E unit := emit (Print line).

(** [torch.cuda.is_available()] *)
Definition torch_cuda_is_available {E} : M E bool :=
  env <- ask ;;
  emit (CudaIsAvailable (cuda_is_available env)) ;;
  ret (cuda_is_available env).

(** [str(b)] for a boolean inside an f-string. *)
Definition str_of_bool (b : bool) : str :=
  if b then lit "True" else lit "False".

(** Assignments to the three keys of [model_state]. *)
Definition set_model {E} (m : Model) : M E unit :=
  s <- get ;;
  put {| model := Some m; tokenizer := tokenizer s;
         model_loaded := model_loaded s |}.

Definition set_tokenizer {E} (tok : Tokenizer) : M E unit :=
  s <- get ;;
  put {| model := model s; tokenizer := Some tok;
         model_loaded := model_loaded s |}.

Definition set_model_loaded {E} (b : bool) : M E unit :=
  s <- get ;;
  put {| model := model s; tokenizer := tokenizer s; model_loaded := b |}.

(** Exceptions the interpreter itself raises in [generate_joke]. *)
Definition TypeError_not_callable : exception :=
  {| exc_type := lit "TypeError";
     exc_str := lit "'NoneType' object is not callable" |}.

Definition AttributeError_generate : exception :=
  {| exc_type := lit "AttributeError";
     exc_str := lit "'NoneType' object has no attribute 'generate'" |}.

Definition IndexError_outputs : exception :=
  {| exc_type := lit "IndexError";
     exc_str :=
       lit "index 0 is out of bounds for dimension 0 with size 0" |}.

(** ** Handlers *)

(** [GET /] *)
Definition read_root {E} : M E (gmap str json) :=
  s <- get ;;
  ret {[ lit "message" := JStr (lit "Joke Generator API");
         lit "model_loaded" := JBool (model_loaded s);
         lit "model_name" := JStr MODEL_NAME ]}.

(** [tokenizer.pad_token = tokenizer.eos_token] *)
Definition set_pad_token (tok : Tokenizer) : Tokenizer :=
  {| tok_checkpoint := tok_checkpoint tok;
     pad_token := eos_token tok;
     eos_token := eos_token tok;
     eos_token_id := eos_token_id tok |}.

(** Set pad token if not exists. *)
Definition ensure_pad_token (tok : Tokenizer) : Tokenizer :=
  match pad_token tok with
  | None => set_pad_token tok
  | Some _ => tok
  end.

(** The [try] block of [load_model]. *)
Definition load_model_body : M exception (gmap str json) :=
  print (lit "Loading model " ++ MODEL_NAME ++ lit "...") ;;
  avail <- torch_cuda_is_available ;;
  print (lit "CUDA available: " ++ str_of_bool avail) ;;
  (* Load tokenizer and model *)
  tokenizer <- extern (TokenizerFromPretrained MODEL_NAME true)
                 (fun env => AutoTokenizer_from_pretrained env MODEL_NAME true) ;;
  let tokenizer := ensure_pad_token tokenizer in
  model <- extern (ModelFromPretrained MODEL_NAME true (lit "auto") true)
             (fun env => AutoModelForCausalLM_from_pretrained env
                           MODEL_NAME true (lit "auto") true) ;;
  set_model model ;;
  set_tokenizer tokenizer ;;
  set_model_loaded true ;;
  print (lit "Model loaded successfully!") ;;
  avail <- torch_cuda_is_available ;;
  ret {[ lit "message" := JStr (lit "Model loaded successfully");
         lit "model_name" := JStr MODEL_NAME;
         lit "device" := JStr (if avail then lit "cuda" else lit "cpu") ]}.

(** The [except Exception as e] clause of [load_model]. *)
Definition load_model_except (e : exception)
  : M HTTPException (gmap str json) :=
  env <- ask ;;
  let error_details := traceback_format_exc env e in
  print (lit "Error loading model: " ++ error_details) ;;
  raise {| status_code := 500;
           detail := lit "Failed to load model: " ++ exc_str e |}.

(** [POST /load-model] *)
Definition load_model : M HTTPException (gmap str json) :=
  s <- get ;;
  if model_loaded s
  then ret {[ lit "message" := JStr (lit "Model already loaded");
              lit "model_name" := JStr MODEL_NAME ]}
  else try_except load_model_body load_model_except.

Definition default_joke : str :=
  lit "Why don't scientists trust atoms? Because they make up everything!".

(** The prompt for joke generation. *)
Definition make_prompt (topic : str) : str :=
  if truthy topic
  then lit "Here's a funny joke about " ++ topic ++ lit ":" ++ [LF]
  else lit "Here's a funny joke:" ++ [LF].

(** The keyword arguments [generate_joke] passes to [model.generate];
    0.9 and 1.2 are the doubles written in hexadecimal. *)
Definition generate_kwargs (request : GenerateJokeRequest.t)
    (tok : Tokenizer) : GenerateKwargs :=
  {| max_new_tokens := Z.min (GenerateJokeRequest.max_length request) 50;
     min_new_tokens := 10;
     kw_temperature := GenerateJokeRequest.temperature request;
     do_sample := true;
     top_p := 0x1.ccccccccccccdp-1%float;
     top_k := 50;
     pad_token_id := eos_token_id tok;
     repetition_penalty := 0x1.3333333333333p+0%float |}.

(** Remove the prompt from the output. *)
Definition remove_prompt (prompt generated_text : str) : str :=
  strip (replace prompt [] generated_text).

(** Clean up and limit length. *)
Definition limit_length (joke : str) : str :=
  if 500 <? len joke then slice_to 500 joke ++ lit "..." else joke.

(** If joke is empty or too short, provide a default. *)
Definition default_if_short (joke : str) : str :=
  if len joke <? 10 then default_joke else joke.

(** The [joke=] argument of the response. *)
Definition joke_or_default (joke : str) : str :=
  if truthy joke then joke else default_joke.

(** The [topic=] argument of the response. *)
Definition topic_or_general (topic : str) : str :=
  if truthy topic then topic else lit "general".

(** Lines 132 to 143: from the decoded text to the returned joke. *)
Definition finish_joke (prompt generated_text : str) : str :=
  let joke := remove_prompt prompt generated_text in
  let joke := limit_length joke in
  let joke := default_if_short joke in
  joke_or_default joke.

(** The [try] block of [generate_joke]. *)
Definition generate_joke_body (request : GenerateJokeRequest.t)
  : M exception JokeResponse.t :=
  s <- get ;;
  let model := model s in
  let tokenizer := tokenizer s in
  (* Create prompt for joke generation *)
  let prompt := make_prompt (GenerateJokeRequest.topic request) in
  (* Tokenize input *)
  match tokenizer with
  | None => raise TypeError_not_callable
  | Some tokenizer =>
      inputs <- extern (TokenizerCall tokenizer prompt (lit "pt"))
                  (fun env => tokenizer_call env tokenizer prompt (lit "pt")) ;;
      avail <- torch_cuda_is_available ;;
      let device := if avail then lit "cuda" else lit "cpu" in
      inputs <- extern (InputsTo inputs device)
                  (fun env => inputs_to env inputs device) ;;
      (* Generate joke *)
      match model with
      | None => raise AttributeError_generate
      | Some model =>
          let kw := generate_kwargs request tokenizer in
          outputs <- extern (ModelGenerate model inputs kw)
                       (fun env => model_generate env model inputs kw) ;;
          (* Decode and clean output *)
          match outputs with
          | [] => raise IndexError_outputs
          | ids :: _ =>
              generated_text <-
                extern (TokenizerDecode tokenizer ids true)
                  (fun env => tokenizer_decode env tokenizer ids true) ;;
              ret {| JokeResponse.joke := finish_joke prompt generated_text;
                     JokeResponse.topic :=
                       topic_or_general (GenerateJokeRequest.topic request) |}
          end
      end
  end.

(** The [except Exception as e] clause of [generate_joke]. *)
Definition generate_joke_except (e : exception)
  : M HTTPException JokeResponse.t :=
  print (lit "Error generating joke: " ++ exc_str e) ;;
  raise {| status_code := 500;
           detail := lit "Failed to generate joke: " ++ exc_str e |}.

(** [POST /generate-joke] *)
Definition generate_joke (request : GenerateJokeRequest.t)
  : M HTTPException JokeResponse.t :=
  s <- get ;;
  if negb (model_loaded s)
  then raise {| status_code := 400;
                detail := lit "Model not loaded. Call /load-model first." |}
  else try_except (generate_joke_body request) generate_joke_except.


(** ** Running the handlers: tactics and run descriptions *)

Ltac unfold_handler :=
  cbv [load_model load_model_body load_model_except
       generate_joke generate_joke_body generate_joke_except read_root
       set_model set_tokenizer set_model_loaded
       try_except bind ret raise get put emit extern ask print
       torch_cuda_is_available negb].

(** Continue a run with a known answer. *)
Ltac answer H := rewrite H; unfold_handler.

Ltac case_answer :=
  match goal with
  | |- context [match ?x with inl _ => _ | inr _ => _ end] =>
      destruct x eqn:?
  | |- context [match ?x with Some _ => _ | None => _ end] =>
      destruct x eqn:?
  | |- context [match ?x with [] => _ | _ :: _ => _ end] =>
      destruct x eqn:?
  | |- context [if ?b then _ else _] => destruct b eqn:?
  end.

(** As [case_answer], leaving the device choice symbolic. *)
Ltac case_call :=
  match goal with
  | |- context [match ?x with inl _ => _ | inr _ => _ end] =>
      destruct x eqn:?
  | |- context [match ?x with Some _ => _ | None => _ end] =>
      destruct x eqn:?
  | |- context [match ?x with [] => _ | _ :: _ => _ end] =>
      destruct x eqn:?
  end.

(** What a successful [generate_joke] did: the answers it got, the
    response it built and its trace. *)
Inductive generate_ok (env : Env) (request : GenerateJokeRequest.t)
    (s : ModelState) : JokeResponse.t -> list event -> Prop :=
| GenerateOk tok m inputs inputs' ids rest generated_text :
    let prompt := make_prompt (GenerateJokeRequest.topic request) in
    let device := if cuda_is_available env then lit "cuda" else lit "cpu" in
    let kw := generate_kwargs request tok in
    model_loaded s = true ->
    tokenizer s = Some tok ->
    model s = Some m ->
    tokenizer_call env tok prompt (lit "pt") = inr inputs ->
    inputs_to env inputs device = inr inputs' ->
    model_generate env m inputs' kw = inr (ids :: rest) ->
    tokenizer_decode env tok ids true = inr generated_text ->
    generate_ok env request s
      {| JokeResponse.joke := finish_joke prompt generated_text;
         JokeResponse.topic :=
           topic_or_general (GenerateJokeRequest.topic request) |}
      [TokenizerCall tok prompt (lit "pt");
       CudaIsAvailable (cuda_is_available env);
       InputsTo inputs device;
       ModelGenerate m inputs' kw;
       TokenizerDecode tok ids true].


(** The two dictionaries [load_model] can return. *)
Definition already_loaded_response : gmap str json :=
  {[ lit "message" := JStr (lit "Model already loaded");
     lit "model_name" := JStr MODEL_NAME ]}.

Definition loaded_response (avail : bool) : gmap str json :=
  {[ lit "message" := JStr (lit "Model loaded successfully");
     lit "model_name" := JStr MODEL_NAME;
     lit "device" := JStr (if avail then lit "cuda" else lit "cpu") ]}.

(** The state a fresh load leaves behind. *)
Definition loaded_state (m : Model) (tok : Tokenizer) : ModelState :=
  {| model := Some m; tokenizer := Some (ensure_pad_token tok);
     model_loaded := true |}.


(** The two artifact fetches of [load_model], as the world answers them. *)
Definition fetch_tokenizer (env : Env) : exception + Tokenizer :=
  AutoTokenizer_from_pretrained env MODEL_NAME true.

Definition fetch_model (env : Env) : exception + Model :=
  AutoModelForCausalLM_from_pretrained env MODEL_NAME true (lit "auto") true.

(** The flag is set exactly when both handles are stored. *)
Definition state_invariant (s : ModelState) : Prop :=
  model_loaded s = true <-> is_Some (model s) /\ is_Some (tokenizer s).

(** The states the service can be in: the initial one and those left by
    any sequence of requests, in any world. *)
Inductive reachable : ModelState -> Prop :=
| reach_start : reachable model_state
| reach_read_root env s :
    reachable s -> reachable (@read_root HTTPException env s).1.2
| reach_load_model env s :
    reachable s -> reachable (load_model env s).1.2
| reach_generate_joke env request s :
    reachable s -> reachable (generate_joke request env s).1.2.

(** [needle in haystack] for strings. *)
Definition contains (haystack needle : str) : Prop :=
  exists before after, haystack = before ++ needle ++ after.

(** ** Scripted worlds for concrete runs *)

Definition qwen_tokenizer : Tokenizer :=
  {| tok_checkpoint := MODEL_NAME;
     pad_token := None;
     eos_token := Some (lit "<|endoftext|>");
     eos_token_id := Some 151643 |}.

Definition qwen_model : Model := {| model_checkpoint := MODEL_NAME |}.

(** A world where every call succeeds and decoding yields [text]. *)
Definition scripted_env (avail : bool) (text : str) : Env :=
  {| cuda_is_available := avail;
     AutoTokenizer_from_pretrained := fun _ _ => inr qwen_tokenizer;
     AutoModelForCausalLM_from_pretrained := fun _ _ _ _ => inr qwen_model;
     tokenizer_call := fun _ prompt _ =>
       inr {| input_ids := map Z.of_N prompt; inputs_device := lit "cpu" |};
     inputs_to := fun inputs device =>
       inr {| input_ids := input_ids inputs; inputs_device := device |};
     model_generate := fun _ inputs _ => inr [input_ids inputs ++ [11; 12]];
     tokenizer_decode := fun _ _ _ => inr text;
     traceback_format_exc := fun e =>
       lit "Traceback (most recent call last): " ++ exc_str e |}.

Definition ConnectionError : exception :=
  {| exc_type := lit "OSError";
     exc_str := lit "We couldn't connect to 'https://huggingface.co'" |}.

Definition OutOfMemoryError : exception :=
  {| exc_type := lit "OutOfMemoryError";
     exc_str := lit "CUDA out of memory." |}.

(** A world where the tokenizer cannot be fetched. *)
Definition offline_env : Env :=
  {| cuda_is_available := false;
     AutoTokenizer_from_pretrained := fun _ _ => inl ConnectionError;
     AutoModelForCausalLM_from_pretrained := fun _ _ _ _ => inl ConnectionError;
     tokenizer_call := fun _ _ _ => inl ConnectionError;
     inputs_to := fun _ _ => inl ConnectionError;
     model_generate := fun _ _ _ => inl ConnectionError;
     tokenizer_decode := fun _ _ _ => inl ConnectionError;
     traceback_format_exc := fun e =>
       lit "Traceback (most recent call last): " ++ exc_str e |}.

(** A world where the tokenizer arrives but the weights do not fit. *)
Definition small_gpu_env : Env :=
  {| cuda_is_available := true;
     AutoTokenizer_from_pretrained := fun _ _ => inr qwen_tokenizer;
     AutoModelForCausalLM_from_pretrained := fun _ _ _ _ => inl OutOfMemoryError;
     tokenizer_call := fun _ _ _ => inl OutOfMemoryError;
     inputs_to := fun _ _ => inl OutOfMemoryError;
     model_generate := fun _ _ _ => inl OutOfMemoryError;
     tokenizer_decode := fun _ _ _ => inl OutOfMemoryError;
     traceback_format_exc := fun e =>
       lit "Traceback (most recent call last): " ++ exc_str e |}.

Definition cats_request : GenerateJokeRequest.t :=
  {| GenerateJokeRequest.topic := lit "cats";
     GenerateJokeRequest.max_length := 100;
     GenerateJokeRequest.temperature := 0x1.999999999999ap-1%float |}.

Definition short_request : GenerateJokeRequest.t :=
  {| GenerateJokeRequest.topic := [];
     GenerateJokeRequest.max_length := 20;
     GenerateJokeRequest.temperature := 0x1.999999999999ap-1%float |}.

(** ** Vocabulary for whole-service properties

    As everywhere in this development, [print] and
    [torch.cuda.is_available()] are taken to return normally: the
    exceptions of a request come from the toolkit calls and from the
    interpreter's own checks. *)

(** The states that requests can lead to from [s0], in any worlds.  Each
    request is one of the three routes: [GET /], [POST /load-model],
    [POST /generate-joke]. *)
Inductive reaches (s0 : ModelState) : ModelState -> Prop :=
| reaches_here : reaches s0 s0
| reaches_read_root env s :
    reaches s0 s -> reaches s0 (@read_root HTTPException env s).1.2
| reaches_load_model env s :
    reaches s0 s -> reaches s0 (load_model env s).1.2
| reaches_generate_joke env request s :
    reaches s0 s -> reaches s0 (generate_joke request env s).1.2.


(** Artifact fetches from the model repository. *)
Definition is_fetch (ev : event) : bool :=
  match ev with
  | TokenizerFromPretrained _ _ | ModelFromPretrained _ _ _ _ => true
  | _ => false
  end.

(** Calls on the loaded tokenizer or model. *)
Definition is_inference (ev : event) : bool :=
  match ev with
  | TokenizerCall _ _ _ | InputsTo _ _ | ModelGenerate _ _ _
  | TokenizerDecode _ _ _ => true
  | _ => false
  end.

Definition is_generate (ev : event) : bool :=
  match ev with
  | ModelGenerate _ _ _ => true
  | _ => false
  end.

(** A string of whitespace only. *)
Definition blank (s : str) : Prop := Forall (fun c => isspace c = true) s.

(** * Properties *)

Example replace_prompt_front :
  replace (lit "ab") [] (lit "abxaby") = lit "xy".
Proof. reflexivity. Qed.

Example replace_non_overlapping :
  replace (lit "aa") (lit "-") (lit "aaaxa") = lit "-axa".
Proof. reflexivity. Qed.

(** The prompt is removed wherever it occurs, not only in front. *)
Example replace_every_occurrence :
  replace (lit "Q:") [] (lit "Q: why? Q: because") = lit " why?  because".
Proof. reflexivity. Qed.

Example replace_empty_pattern :
  replace [] (lit "-") (lit "abc") = lit "-a-b-c-".
Proof. reflexivity. Qed.

Example isspace_table :
  map isspace [9; 13; 14; 27; 28; 32; 97; 133; 160; 8202; 8203; 12288]%N
  = [true; true; false; false; true; true; false; true; true; true; false;
     true].
Proof. reflexivity. Qed.

Example strip_both_ends :
  strip (LF :: lit "  hi there " ++ [LF]) = lit "hi there".
Proof. reflexivity. Qed.

(** ** Post-processing of the decoded text *)

Section PostProcessing.

Implicit Types joke prompt generated_text : str.

Lemma len_default_joke : len default_joke = 66.
Proof. reflexivity. Qed.

Lemma len_marker : length (lit "...") = 3%nat.
Proof. reflexivity. Qed.

Lemma truthy_len joke : 0 < len joke -> truthy joke = true.
Proof. destruct joke; unfold len; simpl; [lia | reflexivity]. Qed.

(** Truncation yields exactly 503 code points. *)
Lemma limit_length_long joke :
  500 < len joke ->
  limit_length joke = slice_to 500 joke ++ lit "..." /\
  len (limit_length joke) = 503.
Proof.
  intros Hlong. unfold limit_length.
  apply Z.ltb_lt in Hlong as Hb. rewrite Hb. split; [reflexivity |].
  unfold len, slice_to in *.
  rewrite length_app, length_take, len_marker. lia.
Qed.

Lemma limit_length_short joke :
  len joke <= 500 -> limit_length joke = joke.
Proof.
  intros Hshort. unfold limit_length.
  apply Z.ltb_ge in Hshort. now rewrite Hshort.
Qed.

(** After the two length checks the joke has 10..500 or 503 code
    points. *)
Lemma default_if_short_limit_length joke :
  let j := default_if_short (limit_length joke) in
  10 <= len j /\ (len j <= 500 \/ len j = 503).
Proof.
  cbv zeta. unfold default_if_short.
  destruct (Z.lt_ge_cases 500 (len joke)) as [Hlong | Hshort].
  - destruct (limit_length_long joke Hlong) as [_ H503].
    rewrite H503. simpl. lia.
  - rewrite (limit_length_short joke Hshort).
    destruct (len joke <? 10) eqn:Hlt.
    + rewrite len_default_joke. lia.
    + apply Z.ltb_ge in Hlt. lia.
Qed.

(** The [joke if joke else ...] guard of the response never takes its
    [else] branch. *)
Lemma joke_or_default_unreachable joke :
  truthy (default_if_short (limit_length joke)) = true /\
  joke_or_default (default_if_short (limit_length joke))
  = default_if_short (limit_length joke).
Proof.
  pose proof (default_if_short_limit_length joke) as [Hge _].
  cbv zeta in Hge.
  assert (Ht : truthy (default_if_short (limit_length joke)) = true)
    by (apply truthy_len; lia).
  split; [exact Ht |]. unfold joke_or_default. now rewrite Ht.
Qed.

Lemma finish_joke_eq prompt generated_text :
  finish_joke prompt generated_text
  = default_if_short (limit_length (remove_prompt prompt generated_text)).
Proof.
  unfold finish_joke. cbv zeta. apply joke_or_default_unreachable.
Qed.

Lemma finish_joke_long prompt generated_text :
  500 < len (remove_prompt prompt generated_text) ->
  finish_joke prompt generated_text
  = slice_to 500 (remove_prompt prompt generated_text) ++ lit "...".
Proof.
  intros Hlong. rewrite finish_joke_eq.
  destruct (limit_length_long _ Hlong) as [Heq H503].
  unfold default_if_short. rewrite H503. simpl. exact Heq.
Qed.

Lemma finish_joke_short prompt generated_text :
  len (remove_prompt prompt generated_text) < 10 ->
  finish_joke prompt generated_text = default_joke.
Proof.
  intros Hlt. rewrite finish_joke_eq.
  rewrite limit_length_short by lia.
  unfold default_if_short. apply Z.ltb_lt in Hlt. now rewrite Hlt.
Qed.

Lemma finish_joke_len prompt generated_text :
  10 <= len (finish_joke prompt generated_text) /\
  (len (finish_joke prompt generated_text) <= 500 \/
   len (finish_joke prompt generated_text) = 503).
Proof.
  rewrite finish_joke_eq. apply default_if_short_limit_length.
Qed.

End PostProcessing.

(** ** Runs of [generate_joke] *)

Lemma generate_joke_returned env request s r s' t :
  generate_joke request env s = (Returned r, s', t) ->
  s' = s /\ generate_ok env request s r t.
Proof.
  unfold_handler. intros Hrun.
  destruct (model_loaded s) eqn:Hloaded; simpl in Hrun; [| discriminate].
  destruct (tokenizer s) as [tok |] eqn:Htok; [| discriminate].
  destruct (tokenizer_call env tok _ _) as [e | inputs] eqn:Hcall;
    [discriminate |].
  destruct (inputs_to env inputs _) as [e | inputs'] eqn:Hto;
    [discriminate |].
  destruct (model s) as [m |] eqn:Hm; [| discriminate].
  destruct (model_generate env m inputs' _) as [e | [| ids rest]] eqn:Hgen;
    try discriminate.
  destruct (tokenizer_decode env tok ids true) as [e | text] eqn:Hdec;
    [discriminate |].
  simpl in Hrun. injection Hrun as <- <- <-.
  split; [reflexivity |].
  now apply (GenerateOk env request s tok m inputs inputs' ids rest text).
Qed.

Lemma generate_ok_returned env request s r t :
  generate_ok env request s r t ->
  generate_joke request env s = (Returned r, s, t).
Proof.
  intros [tok m inputs inputs' ids rest text prompt device kw
            Hloaded Htok Hm Hcall Hto Hgen Hdec].
  subst prompt device kw. unfold_handler.
  answer Hloaded. answer Htok. answer Hcall. answer Hto. answer Hm.
  answer Hgen. answer Hdec. reflexivity.
Qed.

(** [generate_joke] never assigns to [model_state]. *)
Lemma generate_joke_state env request s :
  (generate_joke request env s).1.2 = s.
Proof.
  unfold_handler. repeat (case_answer; simpl); reflexivity.
Qed.

(** Whatever the outcome, a [model.generate] call in the trace was made
    with the keyword arguments of [generate_kwargs]. *)
Lemma generate_joke_kwargs env request s m inputs kw :
  In (ModelGenerate m inputs kw) (generate_joke request env s).2 ->
  exists tok, tokenizer s = Some tok /\ kw = generate_kwargs request tok.
Proof.
  unfold_handler.
  repeat (case_answer; simpl);
    intros Hin;
    repeat (destruct Hin as [Hin | Hin]; try discriminate);
    try contradiction;
    injection Hin as _ _ <-; eauto.
Qed.

(** ** Runs of [load_model] *)

Section LoadModel.

Variable env : Env.
Variable s : ModelState.

Lemma load_model_already :
  model_loaded s = true ->
  load_model env s = (Returned already_loaded_response, s, []).
Proof.
  intros Hloaded. unfold_handler. answer Hloaded. reflexivity.
Qed.

Lemma load_model_fresh tok m :
  model_loaded s = false ->
  fetch_tokenizer env = inr tok ->
  fetch_model env = inr m ->
  load_model env s
  = (Returned (loaded_response (cuda_is_available env)),
     loaded_state m tok,
     [Print (lit "Loading model " ++ MODEL_NAME ++ lit "...");
      CudaIsAvailable (cuda_is_available env);
      Print (lit "CUDA available: "
             ++ str_of_bool (cuda_is_available env));
      TokenizerFromPretrained MODEL_NAME true;
      ModelFromPretrained MODEL_NAME true (lit "auto") true;
      Print (lit "Model loaded successfully!");
      CudaIsAvailable (cuda_is_available env)]).
Proof.
  unfold fetch_tokenizer, fetch_model. intros Hloaded Htok Hm.
  unfold_handler. answer Hloaded. answer Htok. answer Hm. reflexivity.
Qed.

Lemma load_model_tokenizer_fails e :
  model_loaded s = false ->
  fetch_tokenizer env = inl e ->
  load_model env s
  = (Raised {| status_code := 500;
               detail := lit "Failed to load model: " ++ exc_str e |},
     s,
     [Print (lit "Loading model " ++ MODEL_NAME ++ lit "...");
      CudaIsAvailable (cuda_is_available env);
      Print (lit "CUDA available: "
             ++ str_of_bool (cuda_is_available env));
      TokenizerFromPretrained MODEL_NAME true;
      Print (lit "Error loading model: " ++ traceback_format_exc env e)]).
Proof.
  unfold fetch_tokenizer. intros Hloaded Htok.
  unfold_handler. answer Hloaded. answer Htok. reflexivity.
Qed.

Lemma load_model_model_fails tok e :
  model_loaded s = false ->
  fetch_tokenizer env = inr tok ->
  fetch_model env = inl e ->
  load_model env s
  = (Raised {| status_code := 500;
               detail := lit "Failed to load model: " ++ exc_str e |},
     s,
     [Print (lit "Loading model " ++ MODEL_NAME ++ lit "...");
      CudaIsAvailable (cuda_is_available env);
      Print (lit "CUDA available: "
             ++ str_of_bool (cuda_is_available env));
      TokenizerFromPretrained MODEL_NAME true;
      ModelFromPretrained MODEL_NAME true (lit "auto") true;
      Print (lit "Error loading model: " ++ traceback_format_exc env e)]).
Proof.
  unfold fetch_tokenizer, fetch_model. intros Hloaded Htok Hm.
  unfold_handler. answer Hloaded. answer Htok. answer Hm. reflexivity.
Qed.

(** The final state of [load_model]: untouched, or fully loaded. *)
Lemma load_model_state :
  (load_model env s).1.2 = s \/
  exists m tok, (load_model env s).1.2 = loaded_state m tok.
Proof.
  destruct (model_loaded s) eqn:Hloaded.
  - left. now rewrite load_model_already.
  - destruct (fetch_tokenizer env) as [e | tok] eqn:Htok.
    + left. now rewrite (load_model_tokenizer_fails e).
    + destruct (fetch_model env) as [e | m] eqn:Hm.
      * left. now rewrite (load_model_model_fails tok e).
      * right. exists m, tok. now rewrite (load_model_fresh tok m).
Qed.

(** A returning [load_model] leaves the flag set. *)
Lemma load_model_returned_loaded r s' t :
  load_model env s = (Returned r, s', t) -> model_loaded s' = true.
Proof.
  destruct (model_loaded s) eqn:Hloaded.
  - rewrite load_model_already by assumption. congruence.
  - destruct (fetch_tokenizer env) as [e | tok] eqn:Htok.
    + now rewrite (load_model_tokenizer_fails e).
    + destruct (fetch_model env) as [e | m] eqn:Hm.
      * now rewrite (load_model_model_fails tok e).
      * rewrite (load_model_fresh tok m) by assumption.
        intros [= _ <- _]. reflexivity.
Qed.

End LoadModel.

(** * The specification, claim by claim *)

(** C1.  With [model_loaded] false, [generate_joke] raises
    [HTTPException(400, "Model not loaded. Call /load-model first.")]
    at once, whatever the topic, [max_length] and temperature of the
    request: the trace is empty (no tokenizer or model call, so no
    generation) and [model_state] is unchanged. *)
Theorem generate_joke_requires_loaded env request s :
  model_loaded s = false ->
  generate_joke request env s
  = (Raised {| status_code := 400;
               detail := lit "Model not loaded. Call /load-model first." |},
     s, []).
Proof.
  intros Hloaded. unfold_handler. answer Hloaded. reflexivity.
Qed.

Lemma generate_joke_requires_loaded_witness :
  model_loaded model_state = false /\
  generate_joke cats_request (scripted_env true (lit "meow")) model_state
  = (Raised {| status_code := 400;
               detail := lit "Model not loaded. Call /load-model first." |},
     model_state, []).
Proof.
  split; [reflexivity |].
  apply (generate_joke_requires_loaded
           (scripted_env true (lit "meow")) cats_request model_state).
  reflexivity.
Defined.

(** C2.  [load_model] is idempotent.  In a state whose flag is set, and
    in particular in the state left by a [load_model] call that returned,
    [load_model] returns the "Model already loaded" dictionary with an
    empty trace (no fetch, no print), raises nothing and leaves
    [model_state] as it is. *)
Theorem load_model_idempotent env env0 s0 s :
  model_loaded s = true \/
  (exists r t, load_model env0 s0 = (Returned r, s, t)) ->
  load_model env s = (Returned already_loaded_response, s, []) /\
  already_loaded_response !! lit "message"
  = Some (JStr (lit "Model already loaded")).
Proof.
  intros Hpre. split; [| reflexivity].
  apply load_model_already.
  destruct Hpre as [Hloaded | (r & t & Hfirst)]; [exact Hloaded |].
  exact (load_model_returned_loaded env0 s0 r s t Hfirst).
Qed.

Lemma load_model_idempotent_witness :
  (exists r t,
      load_model (scripted_env false []) model_state
      = (Returned r, loaded_state qwen_model qwen_tokenizer, t)) /\
  load_model offline_env (loaded_state qwen_model qwen_tokenizer)
  = (Returned already_loaded_response,
     loaded_state qwen_model qwen_tokenizer, []).
Proof.
  assert (Hfirst : exists r t,
             load_model (scripted_env false []) model_state
             = (Returned r, loaded_state qwen_model qwen_tokenizer, t)).
  { eexists _, _.
    apply (load_model_fresh (scripted_env false []) model_state
             qwen_tokenizer qwen_model); reflexivity. }
  split; [exact Hfirst |].
  exact (proj1 (load_model_idempotent offline_env (scripted_env false [])
                  model_state (loaded_state qwen_model qwen_tokenizer)
                  (or_intror Hfirst))).
Defined.

(** C3.  [load_model] is atomic on failure.  From an unloaded state, if
    fetching the tokenizer raises [e], or the tokenizer arrives and
    fetching the model raises [e], then [load_model] raises
    [HTTPException(500, "Failed to load model: " + str(e))] and
    [model_state] is exactly what it was (flag still false, handles
    untouched); and a later call in a world where both fetches succeed
    loads the model from that state. *)
Theorem load_model_failure_atomic env s e :
  model_loaded s = false ->
  fetch_tokenizer env = inl e \/
  (exists tok, fetch_tokenizer env = inr tok /\ fetch_model env = inl e) ->
  (load_model env s).1.1
  = Raised {| status_code := 500;
              detail := lit "Failed to load model: " ++ exc_str e |} /\
  (load_model env s).1.2 = s /\
  model_loaded (load_model env s).1.2 = false /\
  forall env' tok' m',
    fetch_tokenizer env' = inr tok' ->
    fetch_model env' = inr m' ->
    (load_model env' (load_model env s).1.2).1
    = (Returned (loaded_response (cuda_is_available env')),
       loaded_state m' tok').
Proof.
  intros Hloaded Hfail.
  assert (Hrun : (load_model env s).1
                 = (Raised {| status_code := 500;
                              detail := lit "Failed to load model: "
                                        ++ exc_str e |}, s)).
  { destruct Hfail as [Htok | (tok & Htok & Hm)].
    - now rewrite (load_model_tokenizer_fails env s e).
    - now rewrite (load_model_model_fails env s tok e). }
  rewrite Hrun. simpl. repeat split; try assumption.
  intros env' tok' m' Htok' Hm'.
  now rewrite (load_model_fresh env' s tok' m').
Qed.

Lemma load_model_failure_atomic_witness :
  (load_model offline_env model_state).1
  = (Raised {| status_code := 500;
               detail := lit "Failed to load model: "
                         ++ exc_str ConnectionError |},
     model_state) /\
  (load_model (scripted_env true [])
     (load_model offline_env model_state).1.2).1
  = (Returned (loaded_response true), loaded_state qwen_model qwen_tokenizer).
Proof.
  pose proof (load_model_failure_atomic offline_env model_state
                ConnectionError eq_refl (or_introl eq_refl))
    as (Hout & Hstate & _ & Hretry).
  split.
  - rewrite (surjective_pairing (load_model offline_env model_state).1).
    now rewrite Hout, Hstate.
  - exact (Hretry (scripted_env true []) qwen_tokenizer qwen_model
             eq_refl eq_refl).
Defined.

(** The decode call of a returning run fixes the response. *)
Lemma generate_joke_decoded env request s r s' t tok ids skip text :
  generate_joke request env s = (Returned r, s', t) ->
  In (TokenizerDecode tok ids skip) t ->
  tokenizer_decode env tok ids true = inr text ->
  r = {| JokeResponse.joke :=
           finish_joke (make_prompt (GenerateJokeRequest.topic request)) text;
         JokeResponse.topic :=
           topic_or_general (GenerateJokeRequest.topic request) |}.
Proof.
  intros Hrun Hin Hdec.
  apply generate_joke_returned in Hrun as [_ Hok].
  destruct Hok as [tok0 m inputs inputs' ids0 rest text0 prompt device kw
                     _ _ _ _ _ _ Hdec0].
  simpl in Hin.
  repeat (destruct Hin as [Hin | Hin]; try discriminate); [| contradiction].
  injection Hin as -> -> _.
  rewrite Hdec in Hdec0. injection Hdec0 as ->. reflexivity.
Qed.

(** A returning run decoded exactly one generated sequence. *)
Lemma generate_joke_decodes env request s r s' t :
  generate_joke request env s = (Returned r, s', t) ->
  exists tok ids text,
    In (TokenizerDecode tok ids true) t /\
    tokenizer_decode env tok ids true = inr text.
Proof.
  intros Hrun. apply generate_joke_returned in Hrun as [_ Hok].
  destruct Hok as [tok m inputs inputs' ids rest text prompt device kw
                     _ _ _ _ _ _ Hdec].
  exists tok, ids, text. split; [| exact Hdec].
  simpl. tauto.
Qed.

(** A run in a scripted world, from a loaded state. *)
Lemma scripted_run avail text request :
  generate_joke request (scripted_env avail text)
    (loaded_state qwen_model qwen_tokenizer)
  = (Returned
       {| JokeResponse.joke :=
            finish_joke (make_prompt (GenerateJokeRequest.topic request)) text;
          JokeResponse.topic :=
            topic_or_general (GenerateJokeRequest.topic request) |},
     loaded_state qwen_model qwen_tokenizer,
     (generate_joke request (scripted_env avail text)
        (loaded_state qwen_model qwen_tokenizer)).2).
Proof. reflexivity. Qed.

(** C4.  Every [model.generate] call [generate_joke] makes carries
    [max_new_tokens = min(request.max_length, 50)]: exactly 50 when
    [max_length >= 50], and [max_length] itself when [max_length < 50];
    and a call that returns did call [model.generate]. *)
Theorem generate_budget_clamped env request s out s' t :
  generate_joke request env s = (out, s', t) ->
  (forall m inputs kw,
      In (ModelGenerate m inputs kw) t ->
      max_new_tokens kw
      = Z.min (GenerateJokeRequest.max_length request) 50 /\
      (50 <= GenerateJokeRequest.max_length request ->
       max_new_tokens kw = 50) /\
      (GenerateJokeRequest.max_length request < 50 ->
       max_new_tokens kw = GenerateJokeRequest.max_length request)) /\
  (forall r, out = Returned r ->
             exists m inputs kw, In (ModelGenerate m inputs kw) t).
Proof.
  intros Hrun. split.
  - intros m inputs kw Hin.
    assert (Ht : t = (generate_joke request env s).2) by now rewrite Hrun.
    rewrite Ht in Hin.
    destruct (generate_joke_kwargs env request s m inputs kw Hin)
      as (tok & _ & ->).
    simpl. lia.
  - intros r ->. apply generate_joke_returned in Hrun as [_ Hok].
    destruct Hok as [tok m inputs inputs' ids rest text prompt device kw].
    exists m, inputs', kw. simpl. tauto.
Qed.

Lemma generate_budget_clamped_witness :
  exists m inputs kw,
    In (ModelGenerate m inputs kw)
      (generate_joke cats_request (scripted_env true (lit "meow"))
         (loaded_state qwen_model qwen_tokenizer)).2 /\
    max_new_tokens kw = 50.
Proof.
  pose proof (generate_budget_clamped _ _ _ _ _ _
                (scripted_run true (lit "meow") cats_request))
    as [Hbudget Hcalled].
  destruct (Hcalled _ eq_refl) as (m & inputs & kw & Hin).
  exists m, inputs, kw. split; [exact Hin |].
  destruct (Hbudget m inputs kw Hin) as (_ & Hclamp & _).
  apply Hclamp. simpl. lia.
Defined.

Example budget_below_clamp m inputs kw :
  In (ModelGenerate m inputs kw)
    (generate_joke short_request (scripted_env false (lit "meow"))
       (loaded_state qwen_model qwen_tokenizer)).2 ->
  max_new_tokens kw = 20.
Proof.
  intros Hin.
  destruct (generate_joke_kwargs _ _ _ _ _ _ Hin) as (tok & _ & ->).
  reflexivity.
Qed.

(** C5.  A returned joke has at most 503 code points; and when the
    decoded text, with the prompt removed and whitespace trimmed, has
    more than 500 code points, the joke is its first 500 followed by
    ["..."]. *)
Theorem joke_length_bound env request s r s' t :
  generate_joke request env s = (Returned r, s', t) ->
  len (JokeResponse.joke r) <= 503 /\
  forall tok ids text,
    In (TokenizerDecode tok ids true) t ->
    tokenizer_decode env tok ids true = inr text ->
    let cleaned :=
      remove_prompt (make_prompt (GenerateJokeRequest.topic request)) text in
    500 < len cleaned ->
    JokeResponse.joke r = slice_to 500 cleaned ++ lit "...".
Proof.
  intros Hrun. split.
  - destruct (generate_joke_decodes _ _ _ _ _ _ Hrun)
      as (tok & ids & text & Hin & Hdec).
    rewrite (generate_joke_decoded _ _ _ _ _ _ _ _ _ _ Hrun Hin Hdec).
    simpl.
    pose proof (finish_joke_len
                  (make_prompt (GenerateJokeRequest.topic request)) text).
    lia.
  - intros tok ids text Hin Hdec cleaned Hlong.
    rewrite (generate_joke_decoded _ _ _ _ _ _ _ _ _ _ Hrun Hin Hdec).
    simpl. now apply finish_joke_long.
Qed.

(** 600 letters after the prompt, as a model that rambles would give. *)
Lemma joke_length_bound_witness :
  let text := make_prompt (lit "cats") ++ List.repeat 97%N 600 in
  let r :=
    {| JokeResponse.joke := finish_joke (make_prompt (lit "cats")) text;
       JokeResponse.topic := lit "cats" |} in
  len (JokeResponse.joke r) <= 503 /\
  JokeResponse.joke r = List.repeat 97%N 500 ++ lit "...".
Proof.
  intros text r.
  pose proof (joke_length_bound _ _ _ _ _ _
                (scripted_run false text cats_request)) as [Hlen Htrunc].
  split; [exact Hlen |].
  assert (Hin : In (TokenizerDecode (ensure_pad_token qwen_tokenizer)
                      (map Z.of_N (make_prompt (lit "cats")) ++ [11; 12])
                      true)
                  (generate_joke cats_request (scripted_env false text)
                     (loaded_state qwen_model qwen_tokenizer)).2).
  { vm_compute. tauto. }
  specialize (Htrunc _ _ text Hin eq_refl).
  cbv zeta in Htrunc.
  assert (Hlong : 500 < len (remove_prompt
                               (make_prompt
                                  (GenerateJokeRequest.topic cats_request))
                               text)).
  { vm_compute. reflexivity. }
  refine (eq_trans (Htrunc Hlong) _). vm_compute. reflexivity.
Defined.

(** C6.  When the decoded text, with the prompt removed and whitespace
    trimmed, has fewer than 10 code points (none included), the returned
    joke is the fixed default joke, whatever the world answered
    elsewhere. *)
Theorem short_output_default_joke env request s r s' t tok ids text :
  generate_joke request env s = (Returned r, s', t) ->
  In (TokenizerDecode tok ids true) t ->
  tokenizer_decode env tok ids true = inr text ->
  len (remove_prompt (make_prompt (GenerateJokeRequest.topic request)) text)
  < 10 ->
  JokeResponse.joke r
  = lit "Why don't scientists trust atoms? Because they make up everything!".
Proof.
  intros Hrun Hin Hdec Hshort.
  rewrite (generate_joke_decoded _ _ _ _ _ _ _ _ _ _ Hrun Hin Hdec).
  simpl. now apply finish_joke_short.
Qed.

(** The model echoes the prompt and adds only blanks. *)
Lemma short_output_default_joke_witness :
  let text := make_prompt [] ++ lit "   " in
  JokeResponse.joke
    {| JokeResponse.joke := finish_joke (make_prompt []) text;
       JokeResponse.topic := lit "general" |}
  = default_joke.
Proof.
  intros text.
  apply (short_output_default_joke (scripted_env true text) short_request
           (loaded_state qwen_model qwen_tokenizer) _ _ _
           (ensure_pad_token qwen_tokenizer)
           (map Z.of_N (make_prompt []) ++ [11; 12]) text
           (scripted_run true text short_request)).
  - vm_compute. tauto.
  - reflexivity.
  - vm_compute. reflexivity.
Defined.

Example short_text_replaced :
  finish_joke (make_prompt (lit "cats")) (make_prompt (lit "cats") ++ lit "Ha ha.")
  = default_joke.
Proof. reflexivity. Qed.

Example ten_characters_kept :
  finish_joke (make_prompt []) (make_prompt [] ++ lit " Knock knoc ")
  = lit "Knock knoc".
Proof. reflexivity. Qed.

(** C7.  A returning call tokenized one prompt, the one [make_prompt]
    builds.  With a non-empty topic the response echoes the topic and the
    prompt is "Here's a funny joke about {topic}:" and a newline, which
    contains "about {topic}"; with an empty topic the response says
    "general" and the prompt is "Here's a funny joke:" and a newline. *)
Theorem topic_echo env request s r s' t :
  generate_joke request env s = (Returned r, s', t) ->
  let topic := GenerateJokeRequest.topic request in
  exists tok prompt,
    In (TokenizerCall tok prompt (lit "pt")) t /\
    (forall tok' prompt' rt,
        In (TokenizerCall tok' prompt' rt) t -> prompt' = prompt) /\
    (topic <> [] ->
     JokeResponse.topic r = topic /\
     prompt = lit "Here's a funny joke about " ++ topic ++ lit ":" ++ [LF] /\
     contains prompt (lit "about " ++ topic)) /\
    (topic = [] ->
     JokeResponse.topic r = lit "general" /\
     prompt = lit "Here's a funny joke:" ++ [LF]).
Proof.
  intros Hrun topic. apply generate_joke_returned in Hrun as [_ Hok].
  destruct Hok as [tok m inputs inputs' ids rest text prompt device kw].
  exists tok, prompt. split; [simpl; tauto |]. split; [| split].
  - intros tok' prompt' rt Hin. simpl in Hin.
    destruct Hin as [Hin | Hin]; [now injection Hin |].
    repeat (destruct Hin as [Hin | Hin]; try discriminate). contradiction.
  - intros Hne. subst prompt. simpl JokeResponse.topic.
    unfold topic_or_general, make_prompt. fold topic.
    destruct topic as [| c topic']; [congruence |].
    simpl truthy. cbv iota. repeat split.
    exists (lit "Here's a funny joke "), (lit ":" ++ [LF]).
    rewrite <- !app_assoc. reflexivity.
  - intros Hempty. subst prompt. simpl JokeResponse.topic.
    unfold topic_or_general, make_prompt. fold topic.
    rewrite Hempty. split; reflexivity.
Qed.

Lemma topic_echo_witness :
  exists tok prompt,
    In (TokenizerCall tok prompt (lit "pt"))
      (generate_joke cats_request (scripted_env true (lit "meow"))
         (loaded_state qwen_model qwen_tokenizer)).2 /\
    prompt = lit "Here's a funny joke about cats:" ++ [LF] /\
    contains prompt (lit "about cats").
Proof.
  destruct (topic_echo _ _ _ _ _ _
              (scripted_run true (lit "meow") cats_request))
    as (tok & prompt & Hin & _ & Hcats & _).
  exists tok, prompt. split; [exact Hin |].
  assert (Hne : GenerateJokeRequest.topic cats_request <> [])
    by discriminate.
  destruct (Hcats Hne) as (_ & Hprompt & Hsub).
  split; [exact Hprompt | exact Hsub].
Defined.

Example empty_topic_general :
  (generate_joke short_request (scripted_env false (lit "meow"))
     (loaded_state qwen_model qwen_tokenizer)).1.1
  = Returned {| JokeResponse.joke := default_joke;
                JokeResponse.topic := lit "general" |}.
Proof. reflexivity. Qed.

Lemma state_invariant_loaded_state m tok :
  state_invariant (loaded_state m tok).
Proof. unfold state_invariant. simpl. split; eauto. Qed.

Lemma read_root_state E env s : (@read_root E env s).1.2 = s.
Proof. reflexivity. Qed.

(** Every reachable state is the initial one or a fully loaded one, so
    the invariant holds throughout the life of the process. *)
Lemma reachable_shape s :
  reachable s -> s = model_state \/ exists m tok, s = loaded_state m tok.
Proof.
  induction 1 as [| env s _ IH | env s _ IH | env request s _ IH].
  - now left.
  - now rewrite read_root_state.
  - destruct (load_model_state env s) as [-> | Hloaded];
      [exact IH | now right].
  - now rewrite generate_joke_state.
Qed.

Lemma reachable_invariant s : reachable s -> state_invariant s.
Proof.
  intros Hreach.
  destruct (reachable_shape s Hreach) as [-> | (m & tok & ->)].
  - unfold state_invariant. simpl. split; [discriminate |].
    intros [[m Hm] _]. discriminate.
  - apply state_invariant_loaded_state.
Qed.

(** C8.  [model_loaded] is true exactly when both the model and the
    tokenizer are stored: this holds for the initial [model_state] and
    is kept by [load_model] (already loaded, freshly loaded, or failed),
    by [generate_joke] and by [read_root], whatever the world answers. *)
Theorem state_invariant_preserved :
  state_invariant model_state /\
  (forall env s,
      state_invariant s -> state_invariant (load_model env s).1.2) /\
  (forall env request s,
      state_invariant s ->
      state_invariant (generate_joke request env s).1.2) /\
  (forall E env s,
      state_invariant s -> state_invariant (@read_root E env s).1.2).
Proof.
  split; [| split; [| split]].
  - unfold state_invariant. simpl. split.
    + discriminate.
    + intros [[m Hm] _]. discriminate.
  - intros env s Hinv.
    destruct (load_model_state env s) as [-> | (m & tok & ->)].
    + exact Hinv.
    + apply state_invariant_loaded_state.
  - intros env request s Hinv. now rewrite generate_joke_state.
  - intros E env s Hinv. now rewrite read_root_state.
Qed.

Lemma state_invariant_preserved_witness :
  state_invariant (load_model (scripted_env true []) model_state).1.2 /\
  state_invariant (load_model offline_env model_state).1.2 /\
  state_invariant (load_model small_gpu_env model_state).1.2 /\
  state_invariant
    (generate_joke cats_request (scripted_env true (lit "meow"))
       (load_model (scripted_env true []) model_state).1.2).1.2.
Proof.
  destruct state_invariant_preserved as (Hinit & Hload & Hgen & _).
  split; [| split; [| split]].
  - apply Hload, Hinit.
  - apply Hload, Hinit.
  - apply Hload, Hinit.
  - apply Hgen, Hload, Hinit.
Defined.

Example failed_load_leaves_unloaded :
  (load_model small_gpu_env model_state).1.2 = model_state.
Proof. reflexivity. Qed.

(** C9, as the specification states it, fails: the dictionary of the
    already-loaded branch has no ["device"] key. *)
Lemma already_loaded_lacks_device :
  (load_model offline_env (loaded_state qwen_model qwen_tokenizer)).1.1
  = Returned already_loaded_response /\
  already_loaded_response !! lit "device" = None /\
  ~ (forall env s d,
        (load_model env s).1.1 = Returned d ->
        is_Some (d !! lit "message") /\
        is_Some (d !! lit "model_name") /\
        is_Some (d !! lit "device")).
Proof.
  assert (Hrun :
            (load_model offline_env
               (loaded_state qwen_model qwen_tokenizer)).1.1
            = Returned already_loaded_response) by reflexivity.
  assert (Hnone : already_loaded_response !! lit "device" = None)
    by (vm_compute; reflexivity).
  repeat apply conj; [exact Hrun | exact Hnone |].
  intros Hall. destruct (Hall _ _ _ Hrun) as (_ & _ & [v Hv]).
  rewrite Hnone in Hv. discriminate.
Qed.

(** C9, amended.  Every dictionary [load_model] returns has the keys
    ["message"] and ["model_name"], the latter holding [MODEL_NAME].  On a
    fresh load it also has ["device"], which is "cuda" if
    [torch.cuda.is_available()] and "cpu" otherwise; in the
    already-loaded branch it is the two-key dictionary, without
    ["device"]. *)
Theorem load_model_return_contract env s d :
  (load_model env s).1.1 = Returned d ->
  (exists msg, d !! lit "message" = Some (JStr msg)) /\
  d !! lit "model_name" = Some (JStr MODEL_NAME) /\
  (model_loaded s = false ->
   d !! lit "message" = Some (JStr (lit "Model loaded successfully")) /\
   d !! lit "device"
   = Some (JStr (if cuda_is_available env then lit "cuda" else lit "cpu"))) /\
  (model_loaded s = true ->
   d !! lit "message" = Some (JStr (lit "Model already loaded")) /\
   d !! lit "device" = None).
Proof.
  intros Hret.
  assert (Hcases :
            (model_loaded s = true /\ d = already_loaded_response) \/
            (model_loaded s = false /\
             d = loaded_response (cuda_is_available env))).
  { destruct (model_loaded s) eqn:Hloaded.
    - left. rewrite load_model_already in Hret by assumption.
      simpl in Hret. split; congruence.
    - right. destruct (fetch_tokenizer env) as [e | tok] eqn:Htok.
      + now rewrite (load_model_tokenizer_fails env s e) in Hret.
      + destruct (fetch_model env) as [e | m] eqn:Hm.
        * now rewrite (load_model_model_fails env s tok e) in Hret.
        * rewrite (load_model_fresh env s tok m) in Hret by assumption.
          simpl in Hret. split; congruence. }
  destruct Hcases as [[Hloaded ->] | [Hloaded ->]]; rewrite Hloaded.
  - repeat split; try discriminate; try (vm_compute; reflexivity).
    eexists. vm_compute. reflexivity.
  - destruct (cuda_is_available env);
      (repeat split; try discriminate; try (vm_compute; reflexivity));
      eexists; vm_compute; reflexivity.
Qed.

Lemma load_model_return_contract_witness :
  loaded_response true !! lit "device" = Some (JStr (lit "cuda")) /\
  loaded_response true !! lit "model_name" = Some (JStr MODEL_NAME).
Proof.
  assert (Hret : (load_model (scripted_env true []) model_state).1.1
                 = Returned (loaded_response true)) by reflexivity.
  destruct (load_model_return_contract _ _ _ Hret)
    as (_ & Hname & Hfresh & _).
  split; [| exact Hname].
  exact (proj2 (Hfresh eq_refl)).
Defined.

Example cpu_when_no_accelerator :
  (load_model (scripted_env false []) model_state).1.1
  = Returned (loaded_response false) /\
  loaded_response false !! lit "device" = Some (JStr (lit "cpu")).
Proof. split; vm_compute; reflexivity. Qed.

(** C10.  A returned joke is non-empty with at least 10 code points, and
    has at most 500 or exactly 503 of them (never 501 or 502, never 1 to
    9): the short-text default is applied after the truncation, and the
    empty-string guard in the response never fires, so the joke is the
    text as it left the two length checks. *)
Theorem joke_length_classes env request s r s' t :
  generate_joke request env s = (Returned r, s', t) ->
  let joke := JokeResponse.joke r in
  joke <> [] /\
  10 <= len joke /\
  (len joke <= 500 \/ len joke = 503) /\
  len joke <> 501 /\ len joke <> 502 /\
  forall tok ids text,
    In (TokenizerDecode tok ids true) t ->
    tokenizer_decode env tok ids true = inr text ->
    let checked :=
      default_if_short
        (limit_length
           (remove_prompt (make_prompt (GenerateJokeRequest.topic request))
              text)) in
    truthy checked = true /\ joke = checked.
Proof.
  intros Hrun joke.
  destruct (generate_joke_decodes _ _ _ _ _ _ Hrun)
    as (tok & ids & text & Hin & Hdec).
  pose proof (generate_joke_decoded _ _ _ _ _ _ _ _ _ _ Hrun Hin Hdec)
    as Hr.
  assert (Hjoke : joke = finish_joke
                           (make_prompt (GenerateJokeRequest.topic request))
                           text)
    by (subst joke; now rewrite Hr).
  pose proof (finish_joke_len
                (make_prompt (GenerateJokeRequest.topic request)) text)
    as [Hge Hclass].
  rewrite <- Hjoke in Hge, Hclass.
  repeat apply conj; try lia.
  - intros Hnil. rewrite Hnil in Hge. unfold len in Hge. simpl in Hge. lia.
  - intros tok' ids' text' Hin' Hdec' checked.
    pose proof (generate_joke_decoded _ _ _ _ _ _ _ _ _ _ Hrun Hin' Hdec')
      as Hr'.
    split.
    + apply joke_or_default_unreachable.
    + subst joke checked. rewrite Hr'. simpl. apply finish_joke_eq.
Qed.

Lemma joke_length_classes_witness :
  let text := make_prompt (lit "cats") ++ List.repeat 97%N 501 in
  len (finish_joke (make_prompt (lit "cats")) text) = 503.
Proof.
  intros text.
  pose proof (joke_length_classes _ _ _ _ _ _
                (scripted_run false text cats_request))
    as (_ & _ & Hclass & _).
  cbv zeta in Hclass. simpl JokeResponse.joke in Hclass.
  destruct Hclass as [Hle | H503]; [| exact H503].
  exfalso. revert Hle. vm_compute. intros Hle. apply Hle. reflexivity.
Defined.

(** * Further properties of the code *)

(** ** [str.strip] and [str.replace] as the handlers use them *)

Section Strings.

Implicit Types s old new : str.

Lemma lstrip_split s : exists l, s = l ++ lstrip s /\ blank l.
Proof.
  induction s as [| c s (l & Hs & Hl)]; simpl.
  - exists []. split; [reflexivity | constructor].
  - destruct (isspace c) eqn:Hc.
    + exists (c :: l). split; [simpl; congruence | now constructor].
    + exists []. split; [reflexivity | constructor].
Qed.

Lemma lstrip_head s c rest : lstrip s = c :: rest -> isspace c = false.
Proof.
  induction s as [| a s IH]; simpl; [discriminate |].
  destruct (isspace a) eqn:Ha; [exact IH |].
  intros [= <- _]. exact Ha.
Qed.

Lemma rstrip_split s : exists r, s = rstrip s ++ r /\ blank r.
Proof.
  destruct (lstrip_split (reverse s)) as (l & Hs & Hl).
  exists (reverse l). split.
  - unfold rstrip. rewrite <- reverse_app, <- Hs.
    now rewrite reverse_involutive.
  - unfold blank. now apply Forall_reverse.
Qed.

Lemma rstrip_last s front c : rstrip s = front ++ [c] -> isspace c = false.
Proof.
  unfold rstrip. intros Hr.
  apply (f_equal reverse) in Hr.
  rewrite reverse_involutive, reverse_snoc in Hr.
  exact (lstrip_head _ _ _ Hr).
Qed.

Lemma lstrip_fixed s :
  (forall c rest, s = c :: rest -> isspace c = false) -> lstrip s = s.
Proof.
  destruct s as [| c s]; [reflexivity |].
  intros Hhead. simpl. now rewrite (Hhead c s eq_refl).
Qed.

Lemma startswith_app old s : startswith old (old ++ s) = true.
Proof.
  induction old as [| a old IH]; simpl; [reflexivity |].
  now rewrite N.eqb_refl.
Qed.

Lemma startswith_true old s :
  startswith old s = true -> exists rest, s = old ++ rest.
Proof.
  revert s. induction old as [| a old IH]; intros s; simpl.
  - exists s. reflexivity.
  - destruct s as [| b s]; [discriminate |].
    intros [Hab Hrest]%andb_true_iff.
    apply N.eqb_eq in Hab as ->.
    destruct (IH s Hrest) as (rest & ->). now exists rest.
Qed.

Lemma replace_scan_skip old new pre s :
  replace_scan old new (length pre) (pre ++ s) = replace_scan old new O s.
Proof.
  induction pre as [| c pre IH]; simpl; [| exact IH].
  destruct s; reflexivity.
Qed.

Lemma replace_scan_length old k s :
  (length (replace_scan old [] k s) <= length s)%nat.
Proof.
  revert k. induction s as [| c s IH]; intros k; simpl; [lia |].
  destruct k as [| k].
  - destruct (startswith old (c :: s)); simpl.
    + specialize (IH (length old - 1)%nat). lia.
    + specialize (IH O). lia.
  - specialize (IH k). lia.
Qed.

Lemma strip_head s c rest : strip s = c :: rest -> isspace c = false.
Proof.
  unfold strip. intros Hhead.
  destruct (rstrip_split (lstrip s)) as (r & Hr & _).
  rewrite Hhead in Hr. exact (lstrip_head s c (rest ++ r) Hr).
Qed.

Lemma strip_last s front c : strip s = front ++ [c] -> isspace c = false.
Proof. unfold strip. apply rstrip_last. Qed.

End Strings.

(** [strip] removes whitespace and nothing else, from both ends
    and as much as there is: the argument is a blank string, the result
    and another blank string, and the result neither starts nor ends with
    whitespace. *)
Lemma strip_characterised (s : str) :
  exists l r,
    s = l ++ strip s ++ r /\ blank l /\ blank r /\
    (forall c rest, strip s = c :: rest -> isspace c = false) /\
    (forall front c, strip s = front ++ [c] -> isspace c = false).
Proof.
  destruct (lstrip_split s) as (l & Hl & Hbl).
  destruct (rstrip_split (lstrip s)) as (r & Hr & Hbr).
  exists l, r. repeat split; try assumption.
  - unfold strip. now rewrite <- Hr.
  - apply strip_head.
  - apply strip_last.
Qed.

(** Stripping twice changes nothing more. *)
Lemma strip_idempotent (s : str) : strip (strip s) = strip s.
Proof.
  unfold strip at 1. rewrite (lstrip_fixed (strip s) (strip_head s)).
  destruct (rstrip_split (strip s)) as (r & Hr & Hbr).
  destruct r as [| c r _] using rev_ind.
  - now rewrite app_nil_r in Hr.
  - apply Forall_app in Hbr as [_ Hc]. inversion Hc as [| ? ? Hsp _]; subst.
    rewrite app_assoc in Hr. apply strip_last in Hr. congruence.
Qed.

(** An occurrence of a non-empty pattern at the very front is the first
    one replaced, and the scan resumes right after it. *)
Lemma replace_leading (old new s : str) :
  old <> [] -> replace old new (old ++ s) = new ++ replace old new s.
Proof.
  destruct old as [| a old]; [congruence |]. intros _.
  unfold replace.
  change ((a :: old) ++ s) with (a :: (old ++ s)).
  cbn [replace_scan].
  change (a :: (old ++ s)) with ((a :: old) ++ s).
  rewrite startswith_app.
  replace (length (a :: old) - 1)%nat with (length old)
    by (simpl; lia).
  now rewrite replace_scan_skip.
Qed.

(** A string that does not contain the pattern is returned as it is. *)
Lemma replace_absent (old new s : str) :
  ~ contains s old -> replace old new s = s.
Proof.
  intros Habsent.
  destruct old as [| a old].
  { exfalso. apply Habsent. exists [], s. reflexivity. }
  unfold replace. induction s as [| c s IH]; [reflexivity |].
  cbn [replace_scan].
  destruct (startswith (a :: old) (c :: s)) eqn:Hstart.
  - exfalso. apply Habsent.
    destruct (startswith_true _ _ Hstart) as (rest & ->).
    exists [], rest. reflexivity.
  - f_equal. apply IH. intros (before & after & ->).
    apply Habsent. exists (c :: before), after. reflexivity.
Qed.

Lemma replace_by_empty_shorter (old s : str) :
  (length (replace old [] s) <= length s)%nat.
Proof.
  unfold replace. destruct old as [| a old].
  - simpl. induction s as [| c s IH]; simpl in *; lia.
  - apply replace_scan_length.
Qed.

(** X1.  Removing the prompt and trimming never lengthens the
    decoded text. *)
Theorem remove_prompt_shorter (prompt generated_text : str) :
  len (remove_prompt prompt generated_text) <= len generated_text.
Proof.
  unfold remove_prompt, len.
  set (removed := replace prompt [] generated_text).
  pose proof (replace_by_empty_shorter prompt generated_text) as Hrep.
  fold removed in Hrep.
  destruct (lstrip_split removed) as (l & Hl & _).
  destruct (rstrip_split (lstrip removed)) as (r & Hr & _).
  apply (f_equal (@length N)) in Hl, Hr.
  rewrite length_app in Hl, Hr. unfold strip. lia.
Qed.

(** ** The prompt and the response fields *)

Lemma make_prompt_nonempty topic : make_prompt topic <> [].
Proof. unfold make_prompt. destruct (truthy topic); discriminate. Qed.

(** X2.  Different topics give different prompts: the template is
    injective, the empty topic included. *)
Theorem make_prompt_injective (topic1 topic2 : str) :
  make_prompt topic1 = make_prompt topic2 -> topic1 = topic2.
Proof.
  unfold make_prompt.
  destruct topic1 as [| c1 t1], topic2 as [| c2 t2]; simpl truthy; cbv iota.
  - reflexivity.
  - intros Heq. vm_compute in Heq. discriminate.
  - intros Heq. vm_compute in Heq. discriminate.
  - intros Heq. apply app_inv_head in Heq. now apply app_inv_tail in Heq.
Qed.

Lemma make_prompt_injective_witness :
  lit "cats" = lit "c" ++ lit "ats".
Proof.
  apply make_prompt_injective. reflexivity.
Defined.

(** X3.  The topic of a response is never empty, and it is "general"
    exactly when the request's topic was empty or was itself "general":
    the two cannot be told apart from the response. *)
Theorem response_topic_general env request s r s' t :
  generate_joke request env s = (Returned r, s', t) ->
  JokeResponse.topic r <> [] /\
  (JokeResponse.topic r = lit "general" <->
   GenerateJokeRequest.topic request = [] \/
   GenerateJokeRequest.topic request = lit "general").
Proof.
  intros Hrun. apply generate_joke_returned in Hrun as [_ Hok].
  destruct Hok as [tok m inputs inputs' ids rest text prompt device kw].
  simpl JokeResponse.topic. unfold topic_or_general.
  destruct (GenerateJokeRequest.topic request) as [| c topic];
    simpl truthy; cbv iota.
  - split; [discriminate |]. split; [now left | reflexivity].
  - split; [discriminate |]. split; [now right |].
    intros [Hnil | Hgen]; [discriminate | exact Hgen].
Qed.

Lemma response_topic_general_witness :
  topic_or_general (lit "general") = lit "general" /\
  topic_or_general [] = lit "general".
Proof.
  pose (general_request :=
          {| GenerateJokeRequest.topic := lit "general";
             GenerateJokeRequest.max_length := 100;
             GenerateJokeRequest.temperature := 0x1p+0%float |}).
  split.
  - apply (response_topic_general _ _ _ _ _ _
             (scripted_run true (lit "meow") general_request)).
    now right.
  - apply (response_topic_general _ _ _ _ _ _
             (scripted_run true (lit "meow") short_request)).
    now left.
Defined.

(** X4.  Between the two length limits the handler changes nothing: when
    the decoded text, with the prompt removed and whitespace trimmed, has
    10 to 500 code points, it is the returned joke, code point for code
    point. *)
Theorem joke_unchanged_between_limits env request s r s' t tok ids text :
  generate_joke request env s = (Returned r, s', t) ->
  In (TokenizerDecode tok ids true) t ->
  tokenizer_decode env tok ids true = inr text ->
  let cleaned :=
    remove_prompt (make_prompt (GenerateJokeRequest.topic request)) text in
  10 <= len cleaned <= 500 ->
  JokeResponse.joke r = cleaned.
Proof.
  intros Hrun Hin Hdec cleaned Hlen.
  rewrite (generate_joke_decoded _ _ _ _ _ _ _ _ _ _ Hrun Hin Hdec).
  simpl. rewrite finish_joke_eq. fold cleaned.
  rewrite limit_length_short by lia.
  unfold default_if_short.
  destruct (len cleaned <? 10) eqn:Hlt; [| reflexivity].
  apply Z.ltb_lt in Hlt. lia.
Qed.

Lemma joke_unchanged_between_limits_witness :
  finish_joke (make_prompt (lit "cats"))
    (make_prompt (lit "cats") ++ lit "  Cats land on their feet.  ")
  = lit "Cats land on their feet.".
Proof.
  pose (text := make_prompt (lit "cats") ++ lit "  Cats land on their feet.  ").
  refine (eq_trans
            (joke_unchanged_between_limits (scripted_env true text)
               cats_request (loaded_state qwen_model qwen_tokenizer)
               _ _ _ (ensure_pad_token qwen_tokenizer)
               (map Z.of_N (make_prompt (lit "cats")) ++ [11; 12]) text
               (scripted_run true text cats_request) _ eq_refl _) _).
  - vm_compute. tauto.
  - vm_compute. split; discriminate.
  - vm_compute. reflexivity.
Defined.

(** X5.  A returned joke never starts and never ends with whitespace:
    not the trimmed text, not its truncation (which ends in a dot), not
    the default joke. *)
Theorem joke_no_outer_whitespace env request s r s' t :
  generate_joke request env s = (Returned r, s', t) ->
  (forall c rest, JokeResponse.joke r = c :: rest -> isspace c = false) /\
  (forall front c, JokeResponse.joke r = front ++ [c] -> isspace c = false).
Proof.
  intros Hrun.
  destruct (generate_joke_decodes _ _ _ _ _ _ Hrun)
    as (tok & ids & text & Hin & Hdec).
  rewrite (generate_joke_decoded _ _ _ _ _ _ _ _ _ _ Hrun Hin Hdec).
  simpl JokeResponse.joke. rewrite finish_joke_eq.
  set (cleaned := remove_prompt _ text).
  destruct (Z.lt_ge_cases 500 (len cleaned)) as [Hlong | Hshort].
  - destruct (limit_length_long cleaned Hlong) as [Heq H503].
    unfold default_if_short. rewrite H503. simpl. rewrite Heq. split.
    + intros c rest Hhead.
      destruct cleaned as [| c0 cleaned0] eqn:Hcl;
        [unfold len in Hlong; simpl in Hlong; lia |].
      simpl in Hhead. injection Hhead as <- _.
      exact (strip_head _ _ _ Hcl).
    + intros front c Hlast.
      change (lit "...") with ([46; 46]%N ++ [46%N]) in Hlast.
      rewrite app_assoc in Hlast.
      apply app_inj_tail in Hlast as [_ <-]. reflexivity.
  - rewrite (limit_length_short cleaned Hshort). unfold default_if_short.
    destruct (len cleaned <? 10).
    + split.
      * intros c rest Hhead. vm_compute in Hhead.
        injection Hhead as <- _. reflexivity.
      * intros front c Hlast.
        change default_joke
          with (removelast default_joke ++ [33%N]) in Hlast.
        apply app_inj_tail in Hlast as [_ <-]. reflexivity.
    + split.
      * intros c rest. apply strip_head.
      * intros front c. apply strip_last.
Qed.

Lemma joke_no_outer_whitespace_witness :
  isspace 67%N = false.
Proof.
  pose (text := make_prompt (lit "cats") ++ lit "  Cats land on their feet.  ").
  apply (proj1 (joke_no_outer_whitespace _ _ _ _ _ _
                  (scripted_run true text cats_request))
           67%N (lit "ats land on their feet.")).
  vm_compute. reflexivity.
Defined.

(** X6.  When the model echoes the prompt and continues with text that
    does not contain the prompt again, the joke is that continuation,
    trimmed, provided it has 10 to 500 code points. *)
Theorem echoed_prompt_removed env request s r s' t tok ids continuation :
  let prompt := make_prompt (GenerateJokeRequest.topic request) in
  generate_joke request env s = (Returned r, s', t) ->
  In (TokenizerDecode tok ids true) t ->
  tokenizer_decode env tok ids true = inr (prompt ++ continuation) ->
  ~ contains continuation prompt ->
  10 <= len (strip continuation) <= 500 ->
  JokeResponse.joke r = strip continuation.
Proof.
  intros prompt Hrun Hin Hdec Habsent Hlen.
  rewrite (generate_joke_decoded _ _ _ _ _ _ _ _ _ _ Hrun Hin Hdec).
  simpl. rewrite finish_joke_eq. fold prompt. unfold remove_prompt.
  rewrite (replace_leading prompt [] continuation)
    by apply make_prompt_nonempty.
  simpl app. rewrite (replace_absent prompt [] continuation Habsent).
  rewrite limit_length_short by lia.
  unfold default_if_short.
  destruct (len (strip continuation) <? 10) eqn:Hlt; [| reflexivity].
  apply Z.ltb_lt in Hlt. lia.
Qed.

Lemma echoed_prompt_removed_witness :
  finish_joke (make_prompt (lit "cats"))
    (make_prompt (lit "cats") ++ lit "  Cats land on their feet.  ")
  = lit "Cats land on their feet.".
Proof.
  pose (continuation := lit "  Cats land on their feet.  ").
  pose (text := make_prompt (lit "cats") ++ continuation).
  refine (eq_trans
            (echoed_prompt_removed (scripted_env true text)
               cats_request (loaded_state qwen_model qwen_tokenizer)
               _ _ _ (ensure_pad_token qwen_tokenizer)
               (map Z.of_N (make_prompt (lit "cats")) ++ [11; 12])
               continuation
               (scripted_run true text cats_request) _ eq_refl _ _) _).
  - vm_compute. tauto.
  - intros (before & after & Heq).
    apply (f_equal (@length N)) in Heq.
    rewrite !length_app in Heq.
    change (length continuation) with 28%nat in Heq.
    change (length (make_prompt (GenerateJokeRequest.topic cats_request)))
      with 32%nat in Heq.
    lia.
  - vm_compute. split; discriminate.
  - vm_compute. reflexivity.
Defined.

(** ** [load_model]: outcomes, order of calls, what is stored *)

Lemma load_model_cases env s :
  (model_loaded s = true /\
   load_model env s = (Returned already_loaded_response, s, [])) \/
  (model_loaded s = false /\
   exists e t,
     (fetch_tokenizer env = inl e \/
      exists tok, fetch_tokenizer env = inr tok /\ fetch_model env = inl e) /\
     load_model env s
     = (Raised {| status_code := 500;
                  detail := lit "Failed to load model: " ++ exc_str e |},
        s, t) /\
     last t = Some (Print (lit "Error loading model: "
                           ++ traceback_format_exc env e)) /\
     (fetch_tokenizer env = inl e ->
      forall ev, In ev t -> ev <> ModelFromPretrained MODEL_NAME true
                                    (lit "auto") true)) \/
  (model_loaded s = false /\
   exists tok m t,
     fetch_tokenizer env = inr tok /\ fetch_model env = inr m /\
     load_model env s
     = (Returned (loaded_response (cuda_is_available env)),
        loaded_state m tok, t)).
Proof.
  destruct (model_loaded s) eqn:Hloaded.
  - left. split; [reflexivity |]. now apply load_model_already.
  - right. destruct (fetch_tokenizer env) as [e | tok] eqn:Htok.
    + left. split; [reflexivity |]. eexists e, _.
      split; [now left |].
      split; [now apply load_model_tokenizer_fails |].
      split; [reflexivity |].
      intros _ ev Hin. simpl in Hin.
      repeat (destruct Hin as [<- | Hin]; [discriminate |]). contradiction.
    + destruct (fetch_model env) as [e | m] eqn:Hm.
      * left. split; [reflexivity |]. eexists e, _.
        split; [right; eauto |].
        split; [now apply (load_model_model_fails env s tok) |].
        split; [reflexivity |]. discriminate.
      * right. split; [reflexivity |]. eexists tok, m, _.
        split; [reflexivity |]. split; [reflexivity |].
        now apply load_model_fresh.
Qed.

(** X7.  Whenever [load_model] raises, the state was unloaded and is
    left exactly as it was, the status is 500, the detail is
    "Failed to load model: " followed by [str(e)] of the exception one of
    the two fetches raised, and the last thing printed is the traceback
    of that exception. *)
Theorem load_model_raises env s he s' t :
  load_model env s = (Raised he, s', t) ->
  model_loaded s = false /\ s' = s /\ status_code he = 500 /\
  exists e,
    (fetch_tokenizer env = inl e \/
     exists tok, fetch_tokenizer env = inr tok /\ fetch_model env = inl e) /\
    detail he = lit "Failed to load model: " ++ exc_str e /\
    last t = Some (Print (lit "Error loading model: "
                          ++ traceback_format_exc env e)).
Proof.
  intros Hrun.
  destruct (load_model_cases env s)
    as [[_ Hr] | [(Hl & e & t0 & Hfail & Hr & Hlast & _)
                 | (_ & tok & m & t0 & _ & _ & Hr)]];
    rewrite Hr in Hrun; try discriminate.
  injection Hrun as <- <- <-.
  repeat split; try assumption. exists e. auto.
Qed.

Lemma load_model_raises_witness :
  exists e,
    detail {| status_code := 500;
              detail := lit "Failed to load model: "
                        ++ exc_str OutOfMemoryError |}
    = lit "Failed to load model: " ++ exc_str e.
Proof.
  destruct (load_model_raises small_gpu_env model_state _ _ _ eq_refl)
    as (_ & _ & _ & e & _ & Hdetail & _).
  exists e. exact Hdetail.
Defined.

(** X8.  [load_model] returns exactly when the model was already
    loaded or both fetches succeed. *)
Theorem load_model_returns_iff env s :
  (exists d, (load_model env s).1.1 = Returned d) <->
  model_loaded s = true \/
  (exists tok m, fetch_tokenizer env = inr tok /\ fetch_model env = inr m).
Proof.
  destruct (load_model_cases env s)
    as [[Hl Hr] | [(Hl & e & t0 & Hfail & Hr & _)
                  | (Hl & tok & m & t0 & Htok & Hm & Hr)]];
    rewrite Hr; simpl; split.
  - now left.
  - eauto.
  - intros [d Hd]. discriminate.
  - intros [Hloaded | (tok & m & Htok & Hm)]; [congruence |].
    destruct Hfail as [Hf | (tok' & Hf1 & Hf2)]; congruence.
  - right. eauto.
  - eauto.
Qed.

Lemma load_model_returns_iff_witness :
  (exists d, (load_model (scripted_env true []) model_state).1.1
             = Returned d) /\
  ~ (exists d, (load_model small_gpu_env model_state).1.1 = Returned d).
Proof.
  split.
  - apply load_model_returns_iff. right.
    exists qwen_tokenizer, qwen_model. split; reflexivity.
  - intros Hret. apply load_model_returns_iff in Hret.
    destruct Hret as [Hloaded | (tok & m & _ & Hm)]; discriminate.
Defined.

(** X9.  When fetching the tokenizer raises, the model weights are
    never requested. *)
Theorem load_model_fails_fast env s e name in8bit device_map low_mem :
  fetch_tokenizer env = inl e ->
  ~ In (ModelFromPretrained name in8bit device_map low_mem)
      (load_model env s).2.
Proof.
  intros Htok Hin.
  destruct (model_loaded s) eqn:Hloaded.
  - rewrite load_model_already in Hin by assumption. exact Hin.
  - rewrite (load_model_tokenizer_fails env s e Hloaded Htok) in Hin.
    simpl in Hin.
    repeat (destruct Hin as [Hin | Hin]; [discriminate |]). exact Hin.
Qed.

Lemma load_model_fails_fast_witness :
  ~ In (ModelFromPretrained MODEL_NAME true (lit "auto") true)
      (load_model offline_env model_state).2.
Proof.
  apply (load_model_fails_fast offline_env model_state ConnectionError).
  reflexivity.
Defined.

(** X10.  After a fresh load the stored model is the one fetched, and
    the stored tokenizer is the fetched one except that a missing pad
    token has been set to the end-of-sequence token; so it lacks a pad
    token only if it has no end-of-sequence token either. *)
Theorem load_model_stores_padded_tokenizer env s tok m :
  model_loaded s = false ->
  fetch_tokenizer env = inr tok ->
  fetch_model env = inr m ->
  model (load_model env s).1.2 = Some m /\
  exists stored,
    tokenizer (load_model env s).1.2 = Some stored /\
    pad_token stored
    = match pad_token tok with
      | Some pad => Some pad
      | None => eos_token tok
      end /\
    eos_token stored = eos_token tok /\
    eos_token_id stored = eos_token_id tok /\
    tok_checkpoint stored = tok_checkpoint tok /\
    (pad_token stored = None -> eos_token stored = None).
Proof.
  intros Hloaded Htok Hm.
  rewrite (load_model_fresh env s tok m Hloaded Htok Hm). simpl.
  split; [reflexivity |]. exists (ensure_pad_token tok).
  unfold ensure_pad_token.
  destruct (pad_token tok) as [pad |] eqn:Hpad; simpl;
    rewrite ?Hpad; repeat split; try reflexivity; try discriminate; auto.
Qed.

Lemma load_model_stores_padded_tokenizer_witness :
  exists stored,
    tokenizer (load_model (scripted_env true []) model_state).1.2
    = Some stored /\
    pad_token stored = Some (lit "<|endoftext|>").
Proof.
  destruct (load_model_stores_padded_tokenizer (scripted_env true [])
              model_state qwen_tokenizer qwen_model
              eq_refl eq_refl eq_refl)
    as (_ & stored & Hstored & Hpad & _).
  exists stored. split; [exact Hstored | exact Hpad].
Defined.

(** ** Who talks to the toolkit *)

(** X11.  [load_model] never calls the tokenizer or the model it
    fetches: no tokenization, device move, generation or decoding
    happens during a load, whatever its outcome. *)
Theorem load_model_never_infers env s ev :
  In ev (load_model env s).2 -> is_inference ev = false.
Proof.
  destruct (model_loaded s) eqn:Hloaded.
  - rewrite load_model_already by assumption. intros [].
  - destruct (fetch_tokenizer env) as [e | tok] eqn:Htok.
    + rewrite (load_model_tokenizer_fails env s e) by assumption.
      simpl. intuition (subst; reflexivity).
    + destruct (fetch_model env) as [e | m] eqn:Hm.
      * rewrite (load_model_model_fails env s tok e) by assumption.
        simpl. intuition (subst; reflexivity).
      * rewrite (load_model_fresh env s tok m) by assumption.
        simpl. intuition (subst; reflexivity).
Qed.

Lemma load_model_never_infers_witness :
  is_inference (TokenizerFromPretrained MODEL_NAME true) = false.
Proof.
  apply (load_model_never_infers (scripted_env true []) model_state).
  vm_compute. tauto.
Defined.

(** X12.  [generate_joke] never fetches an artifact: a request that
    arrives before the model is loaded is refused, not served by loading
    on demand. *)
Theorem generate_joke_never_fetches env request s ev :
  In ev (generate_joke request env s).2 -> is_fetch ev = false.
Proof.
  unfold_handler.
  repeat (case_answer; simpl);
    intros Hin;
    repeat (destruct Hin as [<- | Hin]; [reflexivity |]);
    contradiction.
Qed.

Lemma generate_joke_never_fetches_witness :
  is_fetch (CudaIsAvailable true) = false.
Proof.
  apply (generate_joke_never_fetches (scripted_env true (lit "meow"))
           cats_request (loaded_state qwen_model qwen_tokenizer)).
  vm_compute. tauto.
Defined.

(** X13.  One request runs [model.generate] at most once: there is no
    retry, also not after a failure. *)
Theorem generate_joke_generates_once env request s :
  (length (List.filter is_generate (generate_joke request env s).2) <= 1)%nat.
Proof.
  unfold_handler. repeat (case_answer; simpl); lia.
Qed.

(** ** The life of [model_state] *)

(** X14.  Over any sequence of requests [model_state] is written
    at most once: the state reached is the starting state, or the
    starting state was unloaded and the state reached is what one
    successful load stored.  From a loaded state nothing ever changes:
    there is no unload, reload or reset. *)
Theorem model_state_written_once s0 s :
  reaches s0 s ->
  (s = s0 \/
   model_loaded s0 = false /\ exists m tok, s = loaded_state m tok) /\
  (model_loaded s0 = true -> s = s0).
Proof.
  intros Hreach.
  assert (Hshape : s = s0 \/
                   model_loaded s0 = false /\
                   exists m tok, s = loaded_state m tok).
  { induction Hreach as [| env s _ IH | env s _ IH | env request s _ IH].
    - now left.
    - now rewrite read_root_state.
    - destruct (model_loaded s) eqn:Hloaded.
      + now rewrite load_model_already.
      + destruct IH as [-> | (_ & m & tok & ->)]; [| discriminate].
        destruct (load_model_state env s0) as [-> | Hnew];
          [now left | now right].
    - now rewrite generate_joke_state. }
  split; [exact Hshape |].
  intros Hloaded. destruct Hshape as [-> | [Hun _]]; congruence.
Qed.

Lemma model_state_written_once_witness :
  (generate_joke cats_request offline_env
     (load_model offline_env
        (load_model (scripted_env true []) model_state).1.2).1.2).1.2
  = loaded_state qwen_model qwen_tokenizer.
Proof.
  pose (s1 := loaded_state qwen_model qwen_tokenizer).
  assert (Hreach : reaches s1
                     (generate_joke cats_request offline_env
                        (load_model offline_env s1).1.2).1.2).
  { apply reaches_generate_joke, reaches_load_model, reaches_here. }
  exact (proj2 (model_state_written_once _ _ Hreach) eq_refl).
Defined.

(** X15.  [GET /] after [POST /load-model]: the status read reports
    [model_loaded] true exactly when the load call returned, and false
    when it raised; it always returns, touches nothing and calls
    nothing, and names [MODEL_NAME]. *)
Theorem read_root_after_load_model env env' s :
  let s1 := (load_model env s).1.2 in
  exists d,
    @read_root HTTPException env' s1 = (Returned d, s1, []) /\
    d !! lit "model_name" = Some (JStr MODEL_NAME) /\
    d !! lit "message" = Some (JStr (lit "Joke Generator API")) /\
    d !! lit "model_loaded"
    = Some (JBool match (load_model env s).1.1 with
                  | Returned _ => true
                  | Raised _ => false
                  end).
Proof.
  intros s1. eexists. split; [reflexivity |].
  split; [vm_compute; reflexivity |].
  split; [vm_compute; reflexivity |].
  assert (Hflag : model_loaded s1
                  = match (load_model env s).1.1 with
                    | Returned _ => true
                    | Raised _ => false
                    end).
  { subst s1.
    destruct (load_model_cases env s)
      as [[Hl Hr] | [(Hl & e & t0 & _ & Hr & _)
                   | (_ & tok & m & t0 & _ & _ & Hr)]];
      rewrite Hr; simpl; [exact Hl | exact Hl | reflexivity]. }
  rewrite <- Hflag. destruct (model_loaded s1); vm_compute; reflexivity.
Qed.

Lemma read_root_after_load_model_witness :
  exists d,
    (@read_root HTTPException offline_env
       (load_model offline_env model_state).1.2).1.1 = Returned d /\
    d !! lit "model_loaded" = Some (JBool false).
Proof.
  destruct (read_root_after_load_model offline_env offline_env model_state)
    as (d & Hrun & _ & _ & Hflag).
  exists d. split; [now rewrite Hrun | exact Hflag].
Defined.

(** ** [generate_joke]: errors and the order of calls *)




(** Where a [model.generate] call in a trace comes from. *)
Lemma generate_event_inv env request s m inputs' kw :
  In (ModelGenerate m inputs' kw) (generate_joke request env s).2 ->
  model_loaded s = true /\ model s = Some m /\
  exists tok inputs,
    tokenizer s = Some tok /\
    kw = generate_kwargs request tok /\
    tokenizer_call env tok
      (make_prompt (GenerateJokeRequest.topic request)) (lit "pt")
    = inr inputs /\
    inputs_to env inputs
      (if cuda_is_available env then lit "cuda" else lit "cpu")
    = inr inputs'.
Proof.
  unfold_handler. destruct (model_loaded s); unfold_handler; [| intros []].
  repeat (case_call; unfold_handler);
    intros Hin; simpl in Hin;
    repeat (destruct Hin as [Hin | Hin]; try discriminate);
    try contradiction;
    injection Hin as <- <- <-; eauto 10.
Qed.

(** Where a [tokenizer.decode] call in a trace comes from. *)
Lemma decode_event_inv env request s tok ids skip :
  In (TokenizerDecode tok ids skip) (generate_joke request env s).2 ->
  skip = true /\ tokenizer s = Some tok /\
  exists m inputs' rest,
    In (ModelGenerate m inputs' (generate_kwargs request tok))
      (generate_joke request env s).2 /\
    model_generate env m inputs' (generate_kwargs request tok)
    = inr (ids :: rest).
Proof.
  unfold_handler. destruct (model_loaded s); unfold_handler; [| intros []].
  repeat (case_call; unfold_handler);
    intros Hin; simpl in Hin;
    repeat (destruct Hin as [Hin | Hin]; try discriminate);
    try contradiction;
    injection Hin as <- <- <-;
    (split; [reflexivity |]); (split; [reflexivity |]);
    eexists _, _, _; (split; [| eassumption]); simpl; tauto.
Qed.

(** X18.  [tokenizer.decode] is called only on the first sequence of
    a batch that [model.generate] returned in the same request, with the
    stored tokenizer and [skip_special_tokens=True]; further sequences of
    the batch are ignored. *)
Theorem decode_first_generated_sequence env request s tok ids skip :
  In (TokenizerDecode tok ids skip) (generate_joke request env s).2 ->
  skip = true /\ tokenizer s = Some tok /\
  exists m inputs' kw rest,
    In (ModelGenerate m inputs' kw) (generate_joke request env s).2 /\
    model_generate env m inputs' kw = inr (ids :: rest).
Proof.
  intros Hin.
  destruct (decode_event_inv _ _ _ _ _ _ Hin)
    as (Hskip & Htok & m & inputs' & rest & Hgen & Hout).
  eauto 10.
Qed.

Lemma decode_first_generated_sequence_witness :
  exists m inputs' kw rest,
    In (ModelGenerate m inputs' kw)
      (generate_joke cats_request (scripted_env true (lit "meow"))
         (loaded_state qwen_model qwen_tokenizer)).2 /\
    model_generate (scripted_env true (lit "meow")) m inputs' kw
    = inr ((map Z.of_N (make_prompt (lit "cats")) ++ [11; 12]) :: rest).
Proof.
  apply (decode_first_generated_sequence (scripted_env true (lit "meow"))
           cats_request (loaded_state qwen_model qwen_tokenizer)
           (ensure_pad_token qwen_tokenizer) _ true).
  vm_compute. tauto.
Defined.

(** X19.  [model.generate] runs on the stored model, on the tokenized
    prompt as moved to "cuda" when an accelerator is available and to
    "cpu" otherwise; it is not called unless tokenizing and moving
    succeeded. *)
Theorem generate_on_stored_model_and_device env request s m inputs' kw :
  In (ModelGenerate m inputs' kw) (generate_joke request env s).2 ->
  model s = Some m /\
  exists tok inputs,
    tokenizer s = Some tok /\
    tokenizer_call env tok
      (make_prompt (GenerateJokeRequest.topic request)) (lit "pt")
    = inr inputs /\
    inputs_to env inputs
      (if cuda_is_available env then lit "cuda" else lit "cpu")
    = inr inputs' /\
    In (InputsTo inputs
          (if cuda_is_available env then lit "cuda" else lit "cpu"))
      (generate_joke request env s).2.
Proof.
  intros Hin.
  destruct (generate_event_inv _ _ _ _ _ _ Hin)
    as (Hloaded & Hm & tok & inputs & Htok & _ & Hcall & Hto).
  split; [exact Hm |]. exists tok, inputs.
  repeat split; try assumption.
  revert Hin. unfold_handler. rewrite Hloaded. unfold_handler.
  rewrite Htok. unfold_handler. rewrite Hcall. unfold_handler.
  rewrite Hto. unfold_handler. rewrite Hm. unfold_handler.
  repeat (case_call; unfold_handler); intros _; simpl; tauto.
Qed.

Lemma generate_on_stored_model_and_device_witness :
  exists inputs,
    In (InputsTo inputs (lit "cpu"))
      (generate_joke cats_request (scripted_env false (lit "meow"))
         (loaded_state qwen_model qwen_tokenizer)).2.
Proof.
  destruct (generate_on_stored_model_and_device
              (scripted_env false (lit "meow")) cats_request
              (loaded_state qwen_model qwen_tokenizer) qwen_model
              {| input_ids := map Z.of_N (make_prompt (lit "cats"));
                 inputs_device := lit "cpu" |}
              (generate_kwargs cats_request (ensure_pad_token qwen_tokenizer)))
    as (_ & tok & inputs & _ & _ & _ & Hin).
  - vm_compute. tauto.
  - exists inputs. exact Hin.
Defined.

(** X20.  Every [model.generate] call samples with the request's
    temperature as given (no clamping, no validation), at least 10 new
    tokens, [top_k] 50, and the stored tokenizer's end-of-sequence id as
    pad id.  Hence for [max_length] below 10 the call asks for fewer new
    tokens at most than at least: the upper clamp at 50 has no lower
    counterpart. *)
Theorem sampling_parameters env request s m inputs kw :
  In (ModelGenerate m inputs kw) (generate_joke request env s).2 ->
  kw_temperature kw = GenerateJokeRequest.temperature request /\
  do_sample kw = true /\ min_new_tokens kw = 10 /\ top_k kw = 50 /\
  (exists tok, tokenizer s = Some tok /\
               pad_token_id kw = eos_token_id tok) /\
  (max_new_tokens kw < min_new_tokens kw <->
   GenerateJokeRequest.max_length request < 10).
Proof.
  intros Hin.
  destruct (generate_event_inv _ _ _ _ _ _ Hin)
    as (_ & _ & tok & inputs0 & Htok & -> & _).
  simpl. repeat split; try reflexivity; try lia. eauto.
Qed.

Lemma sampling_parameters_witness :
  exists m inputs kw,
    In (ModelGenerate m inputs kw)
      (generate_joke
         {| GenerateJokeRequest.topic := [];
            GenerateJokeRequest.max_length := 5;
            GenerateJokeRequest.temperature := 0x1p+1%float |}
         (scripted_env false (lit "meow"))
         (loaded_state qwen_model qwen_tokenizer)).2 /\
    max_new_tokens kw < min_new_tokens kw /\
    kw_temperature kw = 0x1p+1%float.
Proof.
  eexists qwen_model, _, _. split; [vm_compute; tauto |].
  match goal with
  | |- max_new_tokens ?kw < _ /\ _ =>
      destruct (sampling_parameters (scripted_env false (lit "meow"))
                  {| GenerateJokeRequest.topic := [];
                     GenerateJokeRequest.max_length := 5;
                     GenerateJokeRequest.temperature := 0x1p+1%float |}
                  (loaded_state qwen_model qwen_tokenizer) qwen_model
                  {| input_ids := map Z.of_N (make_prompt []);
                     inputs_device := lit "cpu" |} kw)
        as (Htemp & _ & _ & _ & _ & Hinv)
  end.
  - vm_compute. tauto.
  - split; [apply Hinv; simpl; lia | exact Htemp].
Defined.

(** ** Success, end to end *)

(** X21.  [generate_joke] returns exactly when the model is loaded,
    both handles are stored, and tokenizing, moving to the device,
    generating (a non-empty batch) and decoding all succeed; the state is
    then unchanged and the trace is these calls, in this order, with one
    device probe and nothing printed. *)
Theorem generate_joke_returns_iff env request s r s' t :
  generate_joke request env s = (Returned r, s', t) <->
  s' = s /\
  exists tok m inputs inputs' ids rest text,
    let prompt := make_prompt (GenerateJokeRequest.topic request) in
    let device := if cuda_is_available env then lit "cuda" else lit "cpu" in
    let kw := generate_kwargs request tok in
    model_loaded s = true /\ tokenizer s = Some tok /\ model s = Some m /\
    tokenizer_call env tok prompt (lit "pt") = inr inputs /\
    inputs_to env inputs device = inr inputs' /\
    model_generate env m inputs' kw = inr (ids :: rest) /\
    tokenizer_decode env tok ids true = inr text /\
    r = {| JokeResponse.joke := finish_joke prompt text;
           JokeResponse.topic :=
             topic_or_general (GenerateJokeRequest.topic request) |} /\
    t = [TokenizerCall tok prompt (lit "pt");
         CudaIsAvailable (cuda_is_available env);
         InputsTo inputs device;
         ModelGenerate m inputs' kw;
         TokenizerDecode tok ids true].
Proof.
  split.
  - intros Hrun. apply generate_joke_returned in Hrun as [-> Hok].
    split; [reflexivity |].
    destruct Hok as [tok m inputs inputs' ids rest text prompt device kw].
    exists tok, m, inputs, inputs', ids, rest, text. cbv zeta.
    repeat split; assumption.
  - intros (-> & tok & m & inputs & inputs' & ids & rest & text & H).
    cbv zeta in H.
    destruct H as (Hl & Htok & Hm & Hcall & Hto & Hgen & Hdec & -> & ->).
    apply generate_ok_returned.
    now apply (GenerateOk env request s tok m inputs inputs' ids rest text).
Qed.

Lemma generate_joke_returns_iff_witness :
  generate_joke short_request (scripted_env false (lit "meow"))
    (loaded_state qwen_model qwen_tokenizer)
  = (Returned {| JokeResponse.joke := default_joke;
                 JokeResponse.topic := lit "general" |},
     loaded_state qwen_model qwen_tokenizer,
     (generate_joke short_request (scripted_env false (lit "meow"))
        (loaded_state qwen_model qwen_tokenizer)).2).
Proof.
  apply generate_joke_returns_iff. split; [reflexivity |].
  exists (ensure_pad_token qwen_tokenizer), qwen_model,
    {| input_ids := map Z.of_N (make_prompt []);
       inputs_device := lit "cpu" |},
    {| input_ids := map Z.of_N (make_prompt []);
       inputs_device := lit "cpu" |},
    (map Z.of_N (make_prompt []) ++ [11; 12]), [], (lit "meow").
  cbv zeta. repeat split.
Defined.

(** X22.  Load, then generate.  From a state that satisfies the
    invariant, once [load_model] has returned both handles are stored,
    and a [generate_joke] request whose four toolkit calls succeed on
    them returns a response built from the decoded text, leaving the
    state as the load left it. *)
Theorem load_then_generate env1 env2 request s d s1 t1 :
  state_invariant s ->
  load_model env1 s = (Returned d, s1, t1) ->
  exists tok m,
    tokenizer s1 = Some tok /\ model s1 = Some m /\
    forall inputs inputs' ids rest text,
      let prompt := make_prompt (GenerateJokeRequest.topic request) in
      let device :=
        if cuda_is_available env2 then lit "cuda" else lit "cpu" in
      tokenizer_call env2 tok prompt (lit "pt") = inr inputs ->
      inputs_to env2 inputs device = inr inputs' ->
      model_generate env2 m inputs' (generate_kwargs request tok)
      = inr (ids :: rest) ->
      tokenizer_decode env2 tok ids true = inr text ->
      (generate_joke request env2 s1).1
      = (Returned
           {| JokeResponse.joke := finish_joke prompt text;
              JokeResponse.topic :=
                topic_or_general (GenerateJokeRequest.topic request) |},
         s1).
Proof.
  intros Hinv Hload.
  pose proof (load_model_returned_loaded env1 s d s1 t1 Hload) as Hloaded.
  assert (Hinv1 : state_invariant s1).
  { assert (Hs1 : s1 = (load_model env1 s).1.2) by now rewrite Hload.
    destruct (load_model_state env1 s) as [Hsame | (m & tok & Hnew)].
    - now rewrite Hs1, Hsame.
    - rewrite Hs1, Hnew. apply state_invariant_loaded_state. }
  destruct (proj1 Hinv1 Hloaded) as [[m Hm] [tok Htok]].
  exists tok, m. split; [exact Htok |]. split; [exact Hm |].
  intros inputs inputs' ids rest text prompt device Hcall Hto Hgen Hdec.
  now rewrite (generate_ok_returned env2 request s1 _ _
                 (GenerateOk env2 request s1 tok m inputs inputs' ids rest
                    text Hloaded Htok Hm Hcall Hto Hgen Hdec)).
Qed.

Lemma load_then_generate_witness :
  (generate_joke cats_request
     (scripted_env true
        (make_prompt (lit "cats") ++ lit "Cats land on their feet."))
     (load_model (scripted_env true []) model_state).1.2).1.1
  = Returned {| JokeResponse.joke := lit "Cats land on their feet.";
                JokeResponse.topic := lit "cats" |}.
Proof.
  pose (text := make_prompt (lit "cats") ++ lit "Cats land on their feet.").
  assert (Hinit : state_invariant model_state).
  { unfold state_invariant. simpl. split; [discriminate |].
    intros [[m Hm] _]. discriminate. }
  destruct (load_then_generate (scripted_env true [])
              (scripted_env true text) cats_request model_state
              _ _ _ Hinit
              (load_model_fresh (scripted_env true []) model_state
                 qwen_tokenizer qwen_model eq_refl eq_refl eq_refl))
    as (tok & m & Htok & Hm & Hgen).
  injection Htok as <-. injection Hm as <-.
  specialize (Hgen _ _ _ _ _ eq_refl eq_refl eq_refl eq_refl).
  cbv zeta in Hgen.
  transitivity
    (generate_joke cats_request (scripted_env true text)
       (loaded_state qwen_model qwen_tokenizer)).1.1;
    [reflexivity |].
  rewrite Hgen. vm_compute. reflexivity.
Defined.

